(** * Sparsity filtering and index mapping of the book-rating pipeline

    A shallow embedding of [BookDataProcessor] (src/data/processors.py):
    [clean_ratings], [filter_sparse_data], [create_interaction_matrix] and
    the ratings path of [process_all], together with the properties the
    specification states about them.

    Modelling conventions.
    - A polars cell is a [value]: null, an integer or a string.  The ratings
      file is read by [pl.read_csv] without a schema (src/data/loaders.py),
      so a column of digits arrives as integers and any other column as
      strings.
    - A DataFrame with the three columns user_id, isbn, rating is a list of
      [row]s, in row order.  Its [shape] is (height, width).
    - [group_by(key).len()] has one row per distinct key, null included.
    - [join(right, on=key)] is the inner join; a null key matches nothing
      (polars' default), and the left row order is kept.
    - A Python dict is an insertion-ordered association list; storing under
      a key that is present overwrites its value.
    - A Python exception is the [Raise] outcome of [result]. *)

From Stdlib Require Import String Ascii DecimalString OrderedTypeEx.
From Stdlib Require Import List ZArith Bool Arith Lia Sorted Permutation.
Import ListNotations.

Local Open Scope string_scope.
Local Open Scope list_scope.
Local Open Scope Z_scope.

(** ** Cells *)

Inductive value : Type :=
| VNull
| VInt (z : Z)
| VStr (s : string).

Definition is_null (v : value) : bool :=
  match v with VNull => true | _ => false end.

Definition value_eqb (a b : value) : bool :=
  match a, b with
  | VNull, VNull => true
  | VInt x, VInt y => Z.eqb x y
  | VStr s, VStr t => String.eqb s t
  | _, _ => false
  end.

(** The order [Series.sort()] uses: nulls first, integers by magnitude,
    strings lexicographically on their characters.  A column holds one
    dtype; integers are put before strings only to make the order total. *)
Definition value_compare (a b : value) : comparison :=
  match a, b with
  | VNull, VNull => Eq
  | VNull, _ => Lt
  | _, VNull => Gt
  | VInt x, VInt y => Z.compare x y
  | VInt _, VStr _ => Lt
  | VStr _, VInt _ => Gt
  | VStr s, VStr t => String.compare s t
  end.

Definition value_leb (a b : value) : bool :=
  match value_compare a b with Gt => false | _ => true end.

Definition value_lt (a b : value) : Prop := value_compare a b = Lt.

(** The token a cell has in the CSV file it was read from. *)
Definition raw_token (v : value) : string :=
  match v with
  | VNull => ""
  | VInt z => NilZero.string_of_int (Z.to_int z)
  | VStr s => s
  end.

(** ** Frames *)

(** A row of the raw ratings file. *)
Record raw_row : Type := mk_raw_row {
  User_ID : value;
  ISBN : value;
  Book_Rating : value
}.

(** A row of the cleaned ratings frame. *)
Record row : Type := mk_row {
  user_id : value;
  isbn : value;
  rating : value
}.

Definition DataFrame : Type := list row.

(** [df.shape]: (height, width). *)
Definition shape (df : DataFrame) : nat * nat := (length df, 3%nat).

Definition shape_eqb (a b : nat * nat) : bool :=
  Nat.eqb (fst a) (fst b) && Nat.eqb (snd a) (snd b).

(** ** Series and group-by *)

Definition mem (v : value) (l : list value) : bool := existsb (value_eqb v) l.

(** [Series.unique()]: one occurrence of each distinct cell. *)
Fixpoint unique (l : list value) : list value :=
  match l with
  | [] => []
  | x :: l' => if mem x l' then unique l' else x :: unique l'
  end.

Fixpoint insert_sorted (v : value) (l : list value) : list value :=
  match l with
  | [] => [v]
  | x :: l' => if value_leb v x then v :: l else x :: insert_sorted v l'
  end.

(** [Series.sort()]. *)
Definition sort (l : list value) : list value := fold_right insert_sorted [] l.

(** Number of cells of [col] equal to [k]. *)
Definition count_key (k : value) (col : list value) : nat :=
  length (filter (value_eqb k) col).

(** The frame [df.group_by(key).len()]: a key column and a count column. *)
Definition counts : Type := list (value * nat).

Definition group_by_len (col : list value) : counts :=
  map (fun k => (k, count_key k col)) (unique col).

(** [left.join(right, on=key)]: every left row is paired with the count of
    every right row that has its key; a left row with a null key, or with a
    key the right frame lacks, has no partner and disappears. *)
Definition join (key : row -> value) (left : DataFrame) (right : counts)
  : list (row * nat) :=
  flat_map
    (fun r =>
       if is_null (key r) then []
       else map (fun e => (r, snd e))
                (filter (fun e => value_eqb (key r) (fst e)) right))
    left.

(** [.filter(pl.col(count) >= minimum)]. *)
Definition filter_count_ge (minimum : Z) (j : list (row * nat))
  : list (row * nat) :=
  filter (fun p => minimum <=? Z.of_nat (snd p)) j.

(** [.drop(count)]. *)
Definition drop_count (j : list (row * nat)) : DataFrame := map fst j.

(** ** The processor *)

Record BookDataProcessor : Type := mk_processor {
  min_ratings_per_user : Z;
  min_ratings_per_book : Z
}.

(** [__init__] with its default arguments. *)
Definition default_processor : BookDataProcessor := mk_processor 5 5.

(** [clean_ratings]: the three columns are aliased and selected. *)
Definition clean_ratings (raw : list raw_row) : DataFrame :=
  map (fun r => mk_row (User_ID r) (ISBN r) (Book_Rating r)) raw.

(** The variables the loop of [filter_sparse_data] reads and writes. *)
Record loop_state : Type := mk_state {
  ratings : DataFrame;
  prev_shape : nat * nat;
  user_counts : counts;
  book_counts : counts
}.

(** Lines 56-60: the state on entry to the loop. *)
Definition init_state (df : DataFrame) : loop_state :=
  mk_state df (0%nat, 0%nat)
           (group_by_len (map user_id df)) (group_by_len (map isbn df)).

(** Line 61: [ratings.shape != prev_shape]. *)
Definition loop_cond (st : loop_state) : bool :=
  negb (shape_eqb (shape (ratings st)) (prev_shape st)).

(** Lines 62-76: one pass. *)
Definition loop_body (self : BookDataProcessor) (st : loop_state) : loop_state :=
  let prev := shape (ratings st) in
  let by_user :=
    drop_count (filter_count_ge (min_ratings_per_user self)
                                (join user_id (ratings st) (user_counts st))) in
  let by_book :=
    drop_count (filter_count_ge (min_ratings_per_book self)
                                (join isbn by_user (book_counts st))) in
  mk_state by_book prev
           (group_by_len (map user_id by_book))
           (group_by_len (map isbn by_book)).

(** The [while] loop, cut off after [fuel] tests of its condition. *)
Fixpoint while_loop (self : BookDataProcessor) (fuel : nat) (st : loop_state)
  : option DataFrame :=
  match fuel with
  | O => None
  | S fuel' =>
      if loop_cond st then while_loop self fuel' (loop_body self st)
      else Some (ratings st)
  end.

(** [filter_sparse_data].  A frame of n rows allows at most n passes that
    remove a row, one pass that removes none, and the tests around them;
    [filter_sparse_data_returns] shows this fuel is never used up. *)
Definition filter_sparse_data (self : BookDataProcessor) (df : DataFrame)
  : option DataFrame :=
  while_loop self (length df + 2) (init_state df).

(** ** Dicts and exceptions *)

Inductive exn : Type :=
| KeyError (k : value).

Inductive result (A : Type) : Type :=
| Ok (a : A)
| Raise (e : exn).
Arguments Ok {A} a.
Arguments Raise {A} e.

Definition bind {A B} (m : result A) (f : A -> result B) : result B :=
  match m with
  | Ok a => f a
  | Raise e => Raise e
  end.

Notation "x <- m ;; k" := (bind m (fun x => k))
  (at level 61, m at next level, right associativity).

Section Dict.
Context {K V : Type} (eqb : K -> K -> bool).

Fixpoint dict_get (k : K) (d : list (K * V)) : option V :=
  match d with
  | [] => None
  | (k', v) :: d' => if eqb k k' then Some v else dict_get k d'
  end.

Fixpoint dict_set (k : K) (v : V) (d : list (K * V)) : list (K * V) :=
  match d with
  | [] => [(k, v)]
  | (k', v') :: d' =>
      if eqb k k' then (k', v) :: d' else (k', v') :: dict_set k v d'
  end.

(** [{k: v for k, v in items}]. *)
Definition dict_of (items : list (K * V)) : list (K * V) :=
  fold_left (fun d kv => dict_set (fst kv) (snd kv) d) items [].
End Dict.

(** [enumerate(l)]: pairs (index, element). *)
Definition enumerate {A} (l : list A) : list (nat * A) :=
  combine (seq 0 (length l)) l.

Definition swap {A B} (p : A * B) : B * A := (snd p, fst p).

(** [{x: idx for idx, x in enumerate(l)}]. *)
Definition index_dict (l : list value) : list (value * nat) :=
  dict_of value_eqb (map swap (enumerate l)).

(** [{v: k for k, v in d.items()}]. *)
Definition invert_dict (d : list (value * nat)) : list (nat * value) :=
  dict_of Nat.eqb (map swap d).

(** A row of the interaction matrix: the rating row and its two indices
    (a null index is [None]). *)
Record interaction_row : Type := mk_interaction_row {
  source_row : row;
  user_idx : option nat;
  book_idx : option nat
}.

(** The dict [mappings]. *)
Record mappings : Type := mk_mappings {
  user_to_idx : list (value * nat);
  book_to_idx : list (value * nat);
  idx_to_user : list (nat * value);
  idx_to_book : list (nat * value);
  n_users : nat;
  n_books : nat
}.

(** What a caller finds in [mappings]: the dict literal of lines 95-102,
    as (key, object) items in the order they are written. *)
Inductive pyobj : Type :=
| PyIndex (d : list (value * nat))
| PyReverse (d : list (nat * value))
| PyInt (n : nat).

Definition mappings_items (m : mappings) : list (string * pyobj) :=
  [("user_to_idx", PyIndex (user_to_idx m));
   ("book_to_idx", PyIndex (book_to_idx m));
   ("idx_to_user", PyReverse (idx_to_user m));
   ("idx_to_book", PyReverse (idx_to_book m));
   ("n_users", PyInt (n_users m));
   ("n_books", PyInt (n_books m))].

(** [lambda x: d[x]] under [map_elements], which passes nulls through
    without calling the function. *)
Definition lookup_elem (d : list (value * nat)) (x : value)
  : result (option nat) :=
  if is_null x then Ok None
  else match dict_get value_eqb x d with
       | Some i => Ok (Some i)
       | None => Raise (KeyError x)
       end.

Fixpoint with_indices (users books : list (value * nat)) (df : DataFrame)
  : result (list interaction_row) :=
  match df with
  | [] => Ok []
  | r :: df' =>
      u <- lookup_elem users (user_id r) ;;
      b <- lookup_elem books (isbn r) ;;
      rest <- with_indices users books df' ;;
      Ok (mk_interaction_row r u b :: rest)
  end.

(** [create_interaction_matrix]. *)
Definition create_interaction_matrix (df : DataFrame)
  : result (list interaction_row * mappings) :=
  let unique_users := sort (unique (map user_id df)) in
  let unique_books := sort (unique (map isbn df)) in
  let user_to_idx := index_dict unique_users in
  let book_to_idx := index_dict unique_books in
  interaction_matrix <- with_indices user_to_idx book_to_idx df ;;
  Ok (interaction_matrix,
      mk_mappings user_to_idx book_to_idx
                  (invert_dict user_to_idx) (invert_dict book_to_idx)
                  (length unique_users) (length unique_books)).

(** [process_all], ratings path (lines 133, 137 and 148): the ratings are
    cleaned, filtered and indexed; the caller receives the filtered frame
    and [mappings].  The books and users frames are not modelled. *)
Definition process_all (self : BookDataProcessor) (raw : list raw_row)
  : option (result (DataFrame * mappings)) :=
  match filter_sparse_data self (clean_ratings raw) with
  | None => None
  | Some filtered_ratings =>
      Some (im <- create_interaction_matrix filtered_ratings ;;
            Ok (filtered_ratings, snd im))
  end.

(** ** Books, users and the context features *)

Module Book.
(** A row of the raw books file. *)
Record raw : Type := mk_raw {
  ISBN : value;
  Book_Title : value;
  Book_Author : value;
  Year_Of_Publication : value;
  Publisher : value
}.

(** A row of the cleaned books frame. *)
Record t : Type := mk {
  isbn : value;
  title : value;
  author : value;
  year : value;
  publisher : value
}.

(** The columns [book_stats] adds to a book. *)
Record stats : Type := mk_stats {
  avg_rating : value;
  total_ratings : nat;
  rating_std : value
}.
End Book.

Module User.
(** A row of the raw users file. *)
Record raw : Type := mk_raw {
  User_ID : value;
  Location : value;
  Age : value
}.

(** A row of the cleaned users frame. *)
Record t : Type := mk {
  user_id : value;
  location : value;
  age : value
}.

(** The columns [user_profiles] adds to a user. *)
Record profile : Type := mk_profile {
  avg_rating : value;
  total_ratings : nat
}.
End User.

(** The polars expressions on cells and groups whose results the frame
    operations carry along without looking at them: they work on text and
    floating-point numbers and are taken as given. *)
Class Expressions : Type := {
  (** [.str.strip_chars()] *)
  str_strip_chars : value -> value;
  (** [.str.extract(r"(\d{4})")] *)
  str_extract_year : value -> value;
  (** [.cast(pl.Int32, strict=False)] *)
  cast_int32 : value -> value;
  (** [.mean()] of the cells of a group *)
  mean : list value -> value;
  (** [.std()] of the cells of a group *)
  std : list value -> value
}.

(** [clean_books]. *)
Definition clean_books `{Expressions} (books : list Book.raw) : list Book.t :=
  map (fun b =>
         Book.mk (Book.ISBN b)
                 (str_strip_chars (Book.Book_Title b))
                 (str_strip_chars (Book.Book_Author b))
                 (cast_int32 (str_extract_year (Book.Year_Of_Publication b)))
                 (str_strip_chars (Book.Publisher b)))
      books.

(** [clean_users]. *)
Definition clean_users `{Expressions} (users : list User.raw) : list User.t :=
  map (fun u =>
         User.mk (User.User_ID u)
                 (str_strip_chars (User.Location u))
                 (cast_int32 (User.Age u)))
      users.

(** The rating cells of the group of [k] in [df.group_by(key)]. *)
Definition group_ratings (key : row -> value) (k : value) (df : DataFrame)
  : list value :=
  map rating (filter (fun r => value_eqb k (key r)) df).

(** [pl.col("rating").count()]: the cells of the group that are not
    null. *)
Definition non_null_count (cells : list value) : nat :=
  length (filter (fun v => negb (is_null v)) cells).

Definition profile_of `{Expressions} (k : value) (df : DataFrame)
  : User.profile :=
  User.mk_profile (mean (group_ratings user_id k df))
                  (non_null_count (group_ratings user_id k df)).

Definition stats_of `{Expressions} (k : value) (df : DataFrame)
  : Book.stats :=
  Book.mk_stats (mean (group_ratings isbn k df))
                (non_null_count (group_ratings isbn k df))
                (std (group_ratings isbn k df)).

(** Lines 110-113: one profile per distinct user_id, null included. *)
Definition user_profiles `{Expressions} (df : DataFrame)
  : list (value * User.profile) :=
  map (fun k => (k, profile_of k df)) (unique (map user_id df)).

(** Lines 116-120: one stats row per distinct isbn, null included. *)
Definition book_stats `{Expressions} (df : DataFrame)
  : list (value * Book.stats) :=
  map (fun k => (k, stats_of k df)) (unique (map isbn df)).

(** [left.join(right, on=key)] for any two frames, [right] given as its
    key column and its other columns: the inner join, in which a null key
    matches nothing.  polars refuses to join key columns of different
    dtypes; see [keys_joinable]. *)
Definition join_frames {L R : Type} (key : L -> value) (left : list L)
  (right : list (value * R)) : list (L * R) :=
  flat_map
    (fun l =>
       if is_null (key l) then []
       else map (fun e => (l, snd e))
                (filter (fun e => value_eqb (key l) (fst e)) right))
    left.

(** [create_llm_context_features]: the pair (enhanced_books,
    enhanced_users); an enhanced row is the metadata row with the columns
    the join adds. *)
Definition create_llm_context_features `{Expressions}
  (books : list Book.t) (users : list User.t) (df : DataFrame)
  : list (Book.t * Book.stats) * list (User.t * User.profile) :=
  let user_profiles := user_profiles df in
  let book_stats := book_stats df in
  let enhanced_books := join_frames Book.isbn books book_stats in
  let enhanced_users := join_frames User.user_id users user_profiles in
  (enhanced_books, enhanced_users).

(** [pl.col(c).is_in(series)]; on a null cell the result is null, and
    [filter] drops the row. *)
Definition is_in (v : value) (col : list value) : bool :=
  negb (is_null v) && mem v col.



(** The dtypes of identifier columns. *)
Inductive dtype : Type :=
| Int64
| Utf8.

Definition has_dtype (d : dtype) (v : value) : Prop :=
  match v, d with
  | VNull, _ => True
  | VInt _, Int64 => True
  | VStr _, Utf8 => True
  | _, _ => False
  end.

(** Two columns have one dtype. *)
Definition same_dtype (a b : list value) : Prop :=
  exists d, Forall (has_dtype d) a /\ Forall (has_dtype d) b.


(** ** Vocabulary of the properties *)

(** Number of rows of [df] whose [key] cell equals [k]. *)
Definition count_in (key : row -> value) (k : value) (df : DataFrame) : nat :=
  count_key k (map key df).

(** A row survives the user test against the counts of [snapshot]. *)
Definition keep_user (self : BookDataProcessor) (snapshot : DataFrame)
  (r : row) : bool :=
  negb (is_null (user_id r))
  && (min_ratings_per_user self
      <=? Z.of_nat (count_in user_id (user_id r) snapshot)).

(** A row survives the book test against the counts of [snapshot]. *)
Definition keep_book (self : BookDataProcessor) (snapshot : DataFrame)
  (r : row) : bool :=
  negb (is_null (isbn r))
  && (min_ratings_per_book self
      <=? Z.of_nat (count_in isbn (isbn r) snapshot)).

(** One pass as the code performs it from a frame whose counts are up to
    date: both tests read the counts of the frame the pass started from. *)
Definition pass (self : BookDataProcessor) (df : DataFrame) : DataFrame :=
  filter (keep_book self df) (filter (keep_user self df) df).

(** One pass as the specification words it (steps 2 and 3 of the
    SparsityFilter algorithm): the item counts are taken over the result of
    the user step. *)
Definition spec_pass (self : BookDataProcessor) (df : DataFrame) : DataFrame :=
  let step2 :=
    filter (fun r => min_ratings_per_user self
                     <=? Z.of_nat (count_in user_id (user_id r) df)) df in
  filter (fun r => min_ratings_per_book self
                   <=? Z.of_nat (count_in isbn (isbn r) step2)) step2.

(** The SparsityFilter algorithm as the specification words it (steps 1
    to 4): passes are repeated until one leaves the size unchanged. *)
Fixpoint spec_filter_loop (self : BookDataProcessor) (fuel : nat)
  (current : DataFrame) : option DataFrame :=
  match fuel with
  | O => None
  | S fuel' =>
      let next := spec_pass self current in
      if (length next =? length current)%nat then Some next
      else spec_filter_loop self fuel' next
  end.

Definition spec_sparsity_filter (self : BookDataProcessor) (df : DataFrame)
  : option DataFrame :=
  spec_filter_loop self (length df + 1) df.

(** No row of the frame has a null identifier. *)
Definition no_null_ids (df : DataFrame) : Prop :=
  forall r, In r df -> is_null (user_id r) = false /\ is_null (isbn r) = false.

(** The states the loop of [filter_sparse_data] goes through on input [df]. *)
Inductive reachable (self : BookDataProcessor) (df : DataFrame)
  : loop_state -> Prop :=
| reach_init : reachable self df (init_state df)
| reach_pass st :
    reachable self df st -> loop_cond st = true ->
    reachable self df (loop_body self st).

(** The indices of [d] follow the lexicographic order of the raw tokens of
    its keys. *)
Definition ordered_by_token (d : list (value * nat)) : Prop :=
  forall a b i j,
    dict_get value_eqb a d = Some i -> dict_get value_eqb b d = Some j ->
    String.ltb (raw_token a) (raw_token b) = true -> (i < j)%nat.

(** The indices of [d] follow the order [sort] puts its keys in. *)
Definition ordered_by_sort (d : list (value * nat)) : Prop :=
  forall a b i j,
    dict_get value_eqb a d = Some i -> dict_get value_eqb b d = Some j ->
    (value_lt a b <-> (i < j)%nat).

(** [fwd] and [rev] are a bijection between the cells of the [key] column
    of [df] and the indices below [n]. *)
Definition axis_bijection (key : row -> value) (df : DataFrame)
  (fwd : list (value * nat)) (rev : list (nat * value)) (n : nat) : Prop :=
  (forall v, In v (map key df)
             <-> exists i, dict_get value_eqb v fwd = Some i)
  /\ NoDup (map fst fwd)
  /\ map snd fwd = seq 0 n
  /\ n = length (unique (map key df))
  /\ (forall v i, dict_get value_eqb v fwd = Some i
                  <-> dict_get Nat.eqb i rev = Some v).

(** Both minimums are above every count of the frame. *)
Definition exceeds_every_count (self : BookDataProcessor) (df : DataFrame)
  : Prop :=
  forall r, In r df ->
    Z.of_nat (count_in user_id (user_id r) df) < min_ratings_per_user self
    /\ Z.of_nat (count_in isbn (isbn r) df) < min_ratings_per_book self.

(** The minimum-count invariant of a frame, counts taken in the frame. *)
Definition meets_minimums (self : BookDataProcessor) (df : DataFrame) : Prop :=
  forall t, In t df ->
    min_ratings_per_user self <= Z.of_nat (count_in user_id (user_id t) df)
    /\ min_ratings_per_book self <= Z.of_nat (count_in isbn (isbn t) df).

(** [out] is [df] with some rows removed, the others unchanged and in
    their order. *)
Inductive subframe : DataFrame -> DataFrame -> Prop :=
| subframe_nil : subframe [] []
| subframe_drop r out df : subframe out df -> subframe out (r :: df)
| subframe_keep r out df : subframe out df -> subframe (r :: out) (r :: df).

(** The counts the loop carries are those of the frame it carries. *)
Definition counts_current (st : loop_state) : Prop :=
  user_counts st = group_by_len (map user_id (ratings st))
  /\ book_counts st = group_by_len (map isbn (ratings st)).

(** The sorted distinct cells of a key column. *)
Definition sorted_ids (key : row -> value) (df : DataFrame) : list value :=
  sort (unique (map key df)).

(** What [create_interaction_matrix] returns. *)
Definition mappings_of (df : DataFrame) : mappings :=
  let users := sorted_ids user_id df in
  let books := sorted_ids isbn df in
  mk_mappings (combine users (seq 0 (length users)))
              (combine books (seq 0 (length books)))
              (combine (seq 0 (length users)) users)
              (combine (seq 0 (length books)) books)
              (length users) (length books).


(** The index cell [o] holds the index [i]. *)
Definition has_index (o : option nat) (i : nat) : bool :=
  match o with
  | Some j => Nat.eqb j i
  | None => false
  end.

(** Number of rows of the interaction matrix whose [idx] column holds
    [i]. *)
Definition rows_with (idx : interaction_row -> option nat) (i : nat)
  (im : list interaction_row) : nat :=
  length (filter (fun x => has_index (idx x) i) im).

(** The index cell [o] written for the identifier [v] resolves back to it
    through the reverse dict [rev] of an axis with [n] entries: a null
    identifier has a null index, any other an index below [n] that [rev]
    maps to the identifier. *)
Definition resolves (rev : list (nat * value)) (n : nat) (v : value)
  (o : option nat) : Prop :=
  match o with
  | None => v = VNull
  | Some i => v <> VNull /\ (i < n)%nat /\ dict_get Nat.eqb i rev = Some v
  end.



(** The key columns of the metadata frames and of the ratings have one
    dtype each, as the joins of [create_llm_context_features] require. *)
Definition features_joinable (books : list Book.t) (users : list User.t)
  (df : DataFrame) : Prop :=
  same_dtype (map Book.isbn books) (map isbn df)
  /\ same_dtype (map User.user_id users) (map user_id df).

(** ** Scenarios *)

Definition u1 : value := VStr "u1".
Definition u2 : value := VStr "u2".
Definition i1 : value := VStr "i1".
Definition i2 : value := VStr "i2".

Definition scenario : DataFrame :=
  [mk_row u1 i1 (VInt 5); mk_row u1 i2 (VInt 3); mk_row u2 i1 (VInt 4)].

(** Two ratings by the users 9 and 10, as [read_csv] delivers a User-ID
    column of digits. *)
Definition numeric_users : DataFrame :=
  [mk_row (VInt 9) (VStr "0195153448") (VInt 5);
   mk_row (VInt 10) (VStr "0195153448") (VInt 7)].

(** Raw rows with a missing user, a blank user, a missing rating and a
    rating that is not a number. *)
Definition malformed_rows : list raw_row :=
  [mk_raw_row VNull (VStr "0195153448") (VInt 5);
   mk_raw_row (VStr "   ") (VStr "0195153448") (VInt 5);
   mk_raw_row (VInt 7) (VStr "0195153448") VNull;
   mk_raw_row (VInt 7) (VStr "0195153448") (VStr "n/a")].

(** One rating, by a user and of a book with no other rating. *)
Definition lone_rating : list raw_row :=
  [mk_raw_row (VInt 276725) (VStr "034545104X") (VInt 0)].


Definition scenario_books : list Book.raw :=
  [Book.mk_raw i1 (VStr "Title") (VStr "Author") (VInt 2001)
               (VStr "Publisher");
   Book.mk_raw (VStr "i9") (VStr "Other") (VStr "Author") (VInt 1999)
               (VStr "Publisher")].

Definition scenario_users : list User.raw :=
  [User.mk_raw u1 (VStr "Here") (VInt 30);
   User.mk_raw u2 (VStr "There") VNull].

Definition clean_cells : Expressions :=
  {| str_strip_chars := fun v => v;
     str_extract_year := fun v => v;
     cast_int32 := fun v => v;
     mean := fun _ => VNull;
     std := fun _ => VNull |}.

(** A rating whose user is missing, next to one of user 7. *)
Definition anonymous_rating : DataFrame :=
  [mk_row (VInt 7) (VStr "0195153448") (VInt 5);
   mk_row VNull (VStr "0195153448") (VInt 8)].

(** * Proofs *)

(** ** The specification's scenario *)

Example scenario_filtered :
  filter_sparse_data (mk_processor 2 1) scenario
  = Some [mk_row u1 i1 (VInt 5); mk_row u1 i2 (VInt 3)].
Proof. reflexivity. Qed.

Example scenario_sizes :
  match create_interaction_matrix
          [mk_row u1 i1 (VInt 5); mk_row u1 i2 (VInt 3)] with
  | Ok (_, m) => (n_users m, n_books m)
  | Raise _ => (0%nat, 0%nat)
  end = (1%nat, 2%nat).
Proof. reflexivity. Qed.

(** ** Cells: equality and order *)

Lemma value_eqb_eq (a b : value) : value_eqb a b = true <-> a = b.
Proof.
  destruct a, b; simpl; split; intro H;
    try discriminate; try reflexivity.
  - apply Z.eqb_eq in H. now subst.
  - injection H as ->. apply Z.eqb_refl.
  - apply String.eqb_eq in H. now subst.
  - injection H as ->. apply String.eqb_refl.
Qed.

Lemma value_eqb_refl (a : value) : value_eqb a a = true.
Proof. now apply value_eqb_eq. Qed.

Lemma value_eqb_sym (a b : value) : value_eqb a b = value_eqb b a.
Proof.
  destruct (value_eqb a b) eqn:E.
  - apply value_eqb_eq in E. subst. symmetry. apply value_eqb_refl.
  - destruct (value_eqb b a) eqn:E'; [|reflexivity].
    apply value_eqb_eq in E'. subst. now rewrite value_eqb_refl in E.
Qed.


Lemma value_compare_eq (a b : value) : value_compare a b = Eq -> a = b.
Proof.
  destruct a, b; simpl; intro H; try discriminate; try reflexivity.
  - apply Z.compare_eq in H. now subst.
  - apply String_as_OT.cmp_eq in H. now subst.
Qed.

Lemma value_compare_antisym (a b : value) :
  value_compare a b = CompOpp (value_compare b a).
Proof.
  destruct a, b; simpl; try reflexivity.
  - apply Z.compare_antisym.
  - apply String_as_OT.cmp_antisym.
Qed.

Lemma value_lt_trans (a b c : value) :
  value_lt a b -> value_lt b c -> value_lt a c.
Proof.
  unfold value_lt.
  destruct a, b, c; simpl; intros H1 H2;
    try discriminate; try reflexivity.
  - exact (Z.lt_trans _ _ _ H1 H2).
  - apply String_as_OT.cmp_lt in H1, H2. apply String_as_OT.cmp_lt.
    eapply String_as_OT.lt_trans; eassumption.
Qed.

Lemma value_lt_irrefl (a : value) : ~ value_lt a a.
Proof.
  unfold value_lt. intro H.
  pose proof (value_compare_antisym a a) as A.
  rewrite H in A. discriminate.
Qed.

Lemma value_leb_false_lt (a b : value) : value_leb a b = false -> value_lt b a.
Proof.
  unfold value_leb, value_lt. rewrite (value_compare_antisym b a).
  destruct (value_compare a b); simpl; congruence.
Qed.

Lemma value_leb_true (a b : value) :
  value_leb a b = true -> a = b \/ value_lt a b.
Proof.
  unfold value_leb, value_lt.
  destruct (value_compare a b) eqn:E; intro H.
  - left. now apply value_compare_eq.
  - now right.
  - discriminate.
Qed.

(** On string identifiers the order of [sort] is the lexicographic one. *)
Lemma value_lt_strings (s t : string) :
  value_lt (VStr s) (VStr t) <-> String.ltb s t = true.
Proof.
  unfold value_lt, String.ltb. simpl.
  destruct (String.compare s t); split; congruence.
Qed.

(** On integer identifiers it is the numeric one. *)
Lemma value_lt_ints (x y : Z) : value_lt (VInt x) (VInt y) <-> x < y.
Proof. unfold value_lt. simpl. reflexivity. Qed.

(** ** Series: membership, [unique], counting *)

Lemma mem_In (v : value) (l : list value) : mem v l = true <-> In v l.
Proof.
  unfold mem. rewrite existsb_exists. split.
  - intros [x [Hx E]]. apply value_eqb_eq in E. now subst.
  - intro H. exists v. split; [assumption | apply value_eqb_refl].
Qed.

Lemma unique_In (v : value) (l : list value) : In v (unique l) <-> In v l.
Proof.
  induction l as [|x l IH]; simpl; [tauto|].
  destruct (mem x l) eqn:M.
  - rewrite IH. split; [tauto|].
    intros [->|H]; [now apply mem_In | assumption].
  - simpl. rewrite IH. tauto.
Qed.

Lemma unique_NoDup (l : list value) : NoDup (unique l).
Proof.
  induction l as [|x l IH]; simpl; [constructor|].
  destruct (mem x l) eqn:M; [assumption|].
  constructor; [|assumption].
  rewrite unique_In. intro H. apply mem_In in H. congruence.
Qed.

Lemma count_key_cons (k x : value) (col : list value) :
  count_key k (x :: col)
  = ((if value_eqb k x then 1 else 0) + count_key k col)%nat.
Proof. unfold count_key. simpl. now destruct (value_eqb k x). Qed.

(** ** Generic facts about [filter] *)

Lemma filter_length_bound {A} (f : A -> bool) (l : list A) :
  (length (filter f l) <= length l)%nat.
Proof.
  induction l as [|x l IH]; simpl; [lia|].
  destruct (f x); simpl; lia.
Qed.

Lemma filter_full {A} (f : A -> bool) (l : list A) :
  length (filter f l) = length l -> filter f l = l.
Proof.
  induction l as [|x l IH]; simpl; [reflexivity|].
  pose proof (filter_length_bound f l) as B.
  destruct (f x); simpl; intro H; [|lia].
  f_equal. apply IH. lia.
Qed.

Lemma filter_id_all {A} (f : A -> bool) (l : list A) :
  filter f l = l -> forall x, In x l -> f x = true.
Proof.
  intros H x Hx. rewrite <- H in Hx. now apply filter_In in Hx.
Qed.


Lemma filter_filter {A} (f g : A -> bool) (l : list A) :
  filter g (filter f l) = filter (fun x => f x && g x) l.
Proof.
  induction l as [|x l IH]; simpl; [reflexivity|].
  destruct (f x); simpl; [destruct (g x)|]; now rewrite IH.
Qed.

(** ** Joining a frame with the counts of a frame that contains it *)

Lemma filter_key_absent (f : value -> nat) (l : list value) (k : value) :
  ~ In k l ->
  filter (fun e => value_eqb k (fst e)) (map (fun x => (x, f x)) l) = [].
Proof.
  induction l as [|x l IH]; simpl; intro N; [reflexivity|].
  destruct (value_eqb k x) eqn:E.
  - apply value_eqb_eq in E. subst. tauto.
  - apply IH. tauto.
Qed.

Lemma filter_key_unique (f : value -> nat) (l : list value) (k : value) :
  NoDup l -> In k l ->
  filter (fun e => value_eqb k (fst e)) (map (fun x => (x, f x)) l)
  = [(k, f k)].
Proof.
  induction 1 as [|x l Hx Hl IH]; simpl; intro Hk; [contradiction|].
  destruct (value_eqb k x) eqn:E.
  - apply value_eqb_eq in E. subst x.
    now rewrite filter_key_absent.
  - apply IH. destruct Hk as [->|Hk]; [|assumption].
    now rewrite value_eqb_refl in E.
Qed.

Lemma join_group_by (key : row -> value) (left : DataFrame)
  (col : list value) :
  (forall r, In r left -> In (key r) col) ->
  join key left (group_by_len col)
  = map (fun r => (r, count_key (key r) col))
        (filter (fun r => negb (is_null (key r))) left).
Proof.
  unfold join, group_by_len.
  induction left as [|r left IH]; simpl; intro Hin; [reflexivity|].
  rewrite IH by (intros; apply Hin; now right).
  destruct (is_null (key r)); simpl; [reflexivity|].
  rewrite filter_key_unique.
  - reflexivity.
  - apply unique_NoDup.
  - apply unique_In, Hin. now left.
Qed.

Lemma select_by_count (key : row -> value) (minimum : Z) (left : DataFrame)
  (col : list value) :
  (forall r, In r left -> In (key r) col) ->
  drop_count (filter_count_ge minimum (join key left (group_by_len col)))
  = filter (fun r => negb (is_null (key r))
                     && (minimum <=? Z.of_nat (count_key (key r) col)))
           left.
Proof.
  intro Hin. rewrite join_group_by by assumption. clear Hin.
  unfold drop_count, filter_count_ge.
  induction left as [|r left IH]; simpl; [reflexivity|].
  destruct (is_null (key r)); simpl; [assumption|].
  destruct (minimum <=? Z.of_nat (count_key (key r) col)); simpl;
    now rewrite IH.
Qed.

(** ** One pass of the loop *)

Lemma init_state_current (df : DataFrame) : counts_current (init_state df).
Proof. split; reflexivity. Qed.

Lemma loop_body_current (self : BookDataProcessor) (st : loop_state) :
  counts_current (loop_body self st).
Proof. split; reflexivity. Qed.

Lemma reachable_current (self : BookDataProcessor) (df : DataFrame)
  (st : loop_state) :
  reachable self df st -> counts_current st.
Proof.
  destruct 1; [apply init_state_current | apply loop_body_current].
Qed.

Lemma loop_body_ratings (self : BookDataProcessor) (st : loop_state) :
  counts_current st ->
  ratings (loop_body self st) = pass self (ratings st).
Proof.
  intros [Hu Hb]. unfold loop_body, pass. simpl. rewrite Hu, Hb.
  rewrite (select_by_count user_id _ (ratings st) (map user_id (ratings st)))
    by (intros r Hr; now apply in_map).
  apply select_by_count.
  intros r Hr. apply filter_In in Hr. apply in_map. tauto.
Qed.

Lemma loop_body_prev_shape (self : BookDataProcessor) (st : loop_state) :
  prev_shape (loop_body self st) = shape (ratings st).
Proof. reflexivity. Qed.

Lemma pass_length (self : BookDataProcessor) (df : DataFrame) :
  (length (pass self df) <= length df)%nat.
Proof.
  unfold pass.
  pose proof (filter_length_bound (keep_book self df)
                                  (filter (keep_user self df) df)).
  pose proof (filter_length_bound (keep_user self df) df).
  lia.
Qed.

Lemma pass_same_length (self : BookDataProcessor) (df : DataFrame) :
  length (pass self df) = length df -> pass self df = df.
Proof.
  unfold pass. intro H.
  pose proof (filter_length_bound (keep_book self df)
                                  (filter (keep_user self df) df)) as B1.
  pose proof (filter_length_bound (keep_user self df) df) as B2.
  assert (E : filter (keep_user self df) df = df)
    by (apply filter_full; lia).
  rewrite E in *. now apply filter_full.
Qed.

Lemma pass_fixed_all (self : BookDataProcessor) (df : DataFrame) :
  pass self df = df ->
  forall r, In r df -> keep_user self df r = true /\ keep_book self df r = true.
Proof.
  intros H r Hr. unfold pass in H. rewrite <- H in Hr.
  apply filter_In in Hr. destruct Hr as [Hr Hb].
  apply filter_In in Hr. tauto.
Qed.

Lemma pass_fixed_meets (self : BookDataProcessor) (df : DataFrame) :
  pass self df = df -> meets_minimums self df.
Proof.
  intros H t Ht. destruct (pass_fixed_all self df H t Ht) as [Hu Hb].
  unfold keep_user, keep_book in *.
  apply andb_prop in Hu, Hb. destruct Hu as [_ Hu], Hb as [_ Hb].
  apply Z.leb_le in Hu, Hb. split; assumption.
Qed.

(** ** The loop as a whole *)

Lemma loop_cond_init (df : DataFrame) : loop_cond (init_state df) = true.
Proof.
  unfold loop_cond, init_state, shape, shape_eqb. simpl.
  now rewrite andb_false_r.
Qed.

Lemma loop_cond_after_pass (self : BookDataProcessor) (st : loop_state) :
  loop_cond (loop_body self st)
  = negb (length (ratings (loop_body self st)) =? length (ratings st))%nat.
Proof.
  unfold loop_cond. rewrite loop_body_prev_shape.
  unfold shape, shape_eqb. simpl. now rewrite andb_true_r.
Qed.

Lemma iter_pass_shift (self : BookDataProcessor) (k : nat) (df : DataFrame) :
  Nat.iter k (pass self) (pass self df) = Nat.iter (S k) (pass self) df.
Proof.
  induction k as [|k IH]; simpl; [reflexivity|]. now rewrite IH.
Qed.

Lemma while_loop_step (self : BookDataProcessor) (fuel : nat)
  (st : loop_state) :
  while_loop self (S fuel) st
  = if loop_cond st then while_loop self fuel (loop_body self st)
    else Some (ratings st).
Proof. reflexivity. Qed.

(** A pass that removes nothing is the last one. *)
Lemma while_loop_last_pass (self : BookDataProcessor) (st : loop_state)
  (fuel : nat) :
  counts_current st -> loop_cond st = true ->
  length (pass self (ratings st)) = length (ratings st) ->
  while_loop self (S (S fuel)) st = Some (pass self (ratings st)).
Proof.
  intros Hc Hl E.
  rewrite while_loop_step, Hl, while_loop_step, loop_cond_after_pass.
  rewrite (loop_body_ratings self st Hc), E, Nat.eqb_refl.
  reflexivity.
Qed.

(** From a state with current counts whose test succeeds, the loop runs
    some k+1 passes, returns the frame they produce, and that frame is
    unchanged by a further pass; every pass but the last removes a row. *)
Lemma while_loop_settles (self : BookDataProcessor) (n : nat) :
  forall st,
    counts_current st -> loop_cond st = true ->
    (length (ratings st) <= n)%nat ->
    exists k,
      (forall fuel, (n + 2 <= fuel)%nat ->
         while_loop self fuel st
         = Some (Nat.iter (S k) (pass self) (ratings st)))
      /\ pass self (Nat.iter (S k) (pass self) (ratings st))
         = Nat.iter (S k) (pass self) (ratings st)
      /\ (forall j, (j < k)%nat ->
            (length (Nat.iter (S j) (pass self) (ratings st))
             < length (Nat.iter j (pass self) (ratings st)))%nat).
Proof.
  induction n as [|n IH]; intros st Hc Hl Hn.
  all: pose proof (loop_body_ratings self st Hc) as Hr.
  all: pose proof (pass_length self (ratings st)) as Hp.
  all: destruct (Nat.eq_dec (length (pass self (ratings st)))
                            (length (ratings st))) as [E|E]; [|try lia].
  1, 2: exists 0%nat; simpl;
        pose proof (pass_same_length self _ E) as F; repeat split;
        [ intros fuel Hf;
          destruct fuel as [|[|fuel]]; [lia | lia |];
          now apply while_loop_last_pass
        | now rewrite F
        | intros j Hj; lia ].
  destruct (IH (loop_body self st)) as [k [Hrun [Hfix Hsteps]]].
  - apply loop_body_current.
  - rewrite loop_cond_after_pass, Hr.
    apply Nat.eqb_neq in E. now rewrite E.
  - rewrite Hr. lia.
  - rewrite Hr, iter_pass_shift in Hfix.
    exists (S k). repeat split.
    + intros fuel Hf. destruct fuel as [|fuel]; [lia|].
      rewrite while_loop_step, Hl, Hrun by lia.
      now rewrite Hr, iter_pass_shift.
    + exact Hfix.
    + intros j Hj. destruct j as [|j].
      * simpl. lia.
      * specialize (Hsteps j ltac:(lia)). rewrite Hr in Hsteps.
        now rewrite !iter_pass_shift in Hsteps.
Qed.

Lemma iter_pass_fixed (self : BookDataProcessor) (k : nat) (df : DataFrame) :
  pass self df = df -> Nat.iter k (pass self) df = df.
Proof.
  intro F. induction k as [|k IH]; simpl; [reflexivity|].
  now rewrite IH.
Qed.

(** [filter_sparse_data] returns: the result is the frame after some k+1
    passes, it is unchanged by a further pass, every pass before the last
    removed at least one row, and more fuel gives the same frame. *)
Lemma filter_sparse_data_returns (self : BookDataProcessor) (df : DataFrame) :
  exists k,
    filter_sparse_data self df = Some (Nat.iter (S k) (pass self) df)
    /\ (forall fuel, (length df + 2 <= fuel)%nat ->
          while_loop self fuel (init_state df)
          = Some (Nat.iter (S k) (pass self) df))
    /\ pass self (Nat.iter (S k) (pass self) df)
       = Nat.iter (S k) (pass self) df
    /\ (forall j, (j < k)%nat ->
          (length (Nat.iter (S j) (pass self) df)
           < length (Nat.iter j (pass self) df))%nat).
Proof.
  destruct (while_loop_settles self (length df) (init_state df))
    as [k [Hrun [Hfix Hsteps]]].
  - apply init_state_current.
  - apply loop_cond_init.
  - simpl. lia.
  - exists k. simpl in *. repeat split; try assumption.
    unfold filter_sparse_data. apply Hrun. lia.
Qed.

(** ** Sub-frames *)

Lemma subframe_refl (df : DataFrame) : subframe df df.
Proof.
  induction df; [apply subframe_nil | apply subframe_keep; assumption].
Qed.

Lemma subframe_filter (f : row -> bool) (df : DataFrame) :
  subframe (filter f df) df.
Proof.
  induction df as [|r df IH]; simpl; [constructor|].
  destruct (f r); [apply subframe_keep | apply subframe_drop]; assumption.
Qed.

Lemma subframe_trans (a b c : DataFrame) :
  subframe a b -> subframe b c -> subframe a c.
Proof.
  intros Hab Hbc. revert a Hab.
  induction Hbc as [|r b c Hbc IH|r b c Hbc IH]; intros a Hab.
  - assumption.
  - constructor. now apply IH.
  - inversion Hab; subst.
    + apply subframe_drop. now apply IH.
    + apply subframe_keep. now apply IH.
Qed.

Lemma subframe_length (a b : DataFrame) :
  subframe a b -> (length a <= length b)%nat.
Proof. induction 1; simpl; lia. Qed.

Lemma subframe_In (a b : DataFrame) (r : row) :
  subframe a b -> In r a -> In r b.
Proof.
  induction 1 as [|x a b H IH|x a b H IH]; simpl; intro Hr.
  - assumption.
  - right. now apply IH.
  - destruct Hr as [->|Hr]; [now left | right; now apply IH].
Qed.

Lemma subframe_count (key : row -> value) (k : value) (a b : DataFrame) :
  subframe a b -> (count_in key k a <= count_in key k b)%nat.
Proof.
  unfold count_in.
  induction 1 as [|x a b H IH|x a b H IH]; simpl.
  - lia.
  - rewrite count_key_cons. lia.
  - rewrite !count_key_cons. lia.
Qed.

Lemma subframe_into_filter (f : row -> bool) (a b : DataFrame) :
  subframe a b -> (forall r, In r a -> f r = true) ->
  subframe a (filter f b).
Proof.
  induction 1 as [|x a b H IH|x a b H IH]; simpl; intro Hf.
  - constructor.
  - destruct (f x); [apply subframe_drop|]; now apply IH.
  - rewrite (Hf x (or_introl eq_refl)). apply subframe_keep.
    apply IH. intros r Hr. apply Hf. now right.
Qed.

Lemma pass_subframe (self : BookDataProcessor) (df : DataFrame) :
  subframe (pass self df) df.
Proof.
  unfold pass. eapply subframe_trans; apply subframe_filter.
Qed.

Lemma iter_pass_subframe (self : BookDataProcessor) (k : nat)
  (df : DataFrame) :
  subframe (Nat.iter k (pass self) df) df.
Proof.
  induction k as [|k IH]; simpl; [apply subframe_refl|].
  eapply subframe_trans; [apply pass_subframe | exact IH].
Qed.

(** A sub-frame whose rows all pass both tests on its own counts survives
    a pass over any frame that contains it. *)
Lemma stable_subframe_pass (self : BookDataProcessor) (a b : DataFrame) :
  subframe a b ->
  (forall r, In r a -> keep_user self a r = true /\ keep_book self a r = true) ->
  subframe a (pass self b).
Proof.
  intros Hab Hk. unfold pass.
  apply subframe_into_filter; [apply subframe_into_filter|].
  - assumption.
  - intros r Hr. destruct (Hk r Hr) as [Hu _].
    unfold keep_user in *. apply andb_prop in Hu. destruct Hu as [Hn Hu].
    rewrite Hn. simpl. apply Z.leb_le. apply Z.leb_le in Hu.
    pose proof (subframe_count user_id (user_id r) a b Hab). lia.
  - intros r Hr. destruct (Hk r Hr) as [_ Hb].
    unfold keep_book in *. apply andb_prop in Hb. destruct Hb as [Hn Hb].
    rewrite Hn. simpl. apply Z.leb_le. apply Z.leb_le in Hb.
    pose proof (subframe_count isbn (isbn r) a b Hab). lia.
Qed.

Lemma stable_subframe_iter (self : BookDataProcessor) (k : nat)
  (a b : DataFrame) :
  subframe a b ->
  (forall r, In r a -> keep_user self a r = true /\ keep_book self a r = true) ->
  subframe a (Nat.iter k (pass self) b).
Proof.
  intros Hab Hk. induction k as [|k IH]; simpl; [assumption|].
  now apply stable_subframe_pass.
Qed.

(** Lowering the user minimum keeps both tests satisfied. *)
Lemma keep_user_weaken (mu mu' mb : Z) (snapshot : DataFrame) (r : row) :
  mu <= mu' ->
  keep_user (mk_processor mu' mb) snapshot r = true ->
  keep_user (mk_processor mu mb) snapshot r = true.
Proof.
  unfold keep_user. simpl. intros Hle H.
  apply andb_prop in H. destruct H as [Hn H]. rewrite Hn. simpl.
  apply Z.leb_le. apply Z.leb_le in H. lia.
Qed.

(** ** Sorting a series of distinct cells *)

Lemma insert_sorted_In (v x : value) (l : list value) :
  In x (insert_sorted v l) <-> x = v \/ In x l.
Proof.
  induction l as [|y l IH]; simpl.
  - intuition congruence.
  - destruct (value_leb v y); simpl; rewrite ?IH; intuition congruence.
Qed.

Lemma insert_sorted_length (v : value) (l : list value) :
  length (insert_sorted v l) = S (length l).
Proof.
  induction l as [|y l IH]; simpl; [reflexivity|].
  destruct (value_leb v y); simpl; now rewrite ?IH.
Qed.

Lemma sort_In (x : value) (l : list value) : In x (sort l) <-> In x l.
Proof.
  induction l as [|y l IH]; simpl; [tauto|].
  rewrite insert_sorted_In, IH. intuition congruence.
Qed.

Lemma sort_length (l : list value) : length (sort l) = length l.
Proof.
  induction l as [|y l IH]; simpl; [reflexivity|].
  now rewrite insert_sorted_length, IH.
Qed.

Lemma insert_sorted_strict (v : value) (l : list value) :
  StronglySorted value_lt l -> ~ In v l ->
  StronglySorted value_lt (insert_sorted v l).
Proof.
  induction 1 as [|y l Hs IH Hy]; simpl; intro Hv.
  - repeat constructor.
  - destruct (value_leb v y) eqn:E.
    + destruct (value_leb_true v y E) as [->|Hlt]; [tauto|].
      constructor; [now constructor|].
      constructor; [assumption|].
      rewrite Forall_forall in *. intros z Hz.
      eapply value_lt_trans; [exact Hlt | now apply Hy].
    + constructor; [apply IH; tauto|].
      rewrite Forall_forall in *. intros z Hz.
      apply insert_sorted_In in Hz. destruct Hz as [->|Hz].
      * now apply value_leb_false_lt.
      * now apply Hy.
Qed.

Lemma sort_strict (l : list value) :
  NoDup l -> StronglySorted value_lt (sort l).
Proof.
  induction 1 as [|x l Hx Hl IH]; simpl; [constructor|].
  apply insert_sorted_strict; [assumption|].
  now rewrite sort_In.
Qed.

Lemma strict_NoDup (l : list value) : StronglySorted value_lt l -> NoDup l.
Proof.
  induction 1 as [|x l Hs IH Hx]; constructor; [|assumption].
  intro Hin. rewrite Forall_forall in Hx.
  exact (value_lt_irrefl x (Hx x Hin)).
Qed.

(** Two strictly increasing series with the same cells are the same. *)
Lemma strict_unique (l1 : list value) :
  forall l2,
    StronglySorted value_lt l1 -> StronglySorted value_lt l2 ->
    (forall v, In v l1 <-> In v l2) -> l1 = l2.
Proof.
  induction l1 as [|x l1 IH]; intros l2 H1 H2 Hsame.
  - destruct l2 as [|y l2]; [reflexivity|].
    exfalso. apply (Hsame y). now left.
  - destruct l2 as [|y l2].
    + exfalso. apply (Hsame x). now left.
    + inversion H1 as [|? ? Hs1 Hx]; subst.
      inversion H2 as [|? ? Hs2 Hy]; subst.
      rewrite Forall_forall in Hx, Hy.
      assert (Hxy : x = y).
      { destruct (proj1 (Hsame x) (or_introl eq_refl)) as [E|Hin];
          [now symmetry|].
        destruct (proj2 (Hsame y) (or_introl eq_refl)) as [E|Hin'];
          [assumption|].
        exfalso. apply (value_lt_irrefl x).
        eapply value_lt_trans; [apply Hx, Hin' | apply Hy, Hin]. }
      subst y. f_equal. apply IH; try assumption.
      intro v. split; intro Hv.
      * destruct (proj1 (Hsame v) (or_intror Hv)) as [E|Hin]; [|assumption].
        subst v. exfalso. exact (value_lt_irrefl x (Hx x Hv)).
      * destruct (proj2 (Hsame v) (or_intror Hv)) as [E|Hin]; [|assumption].
        subst v. exfalso. exact (value_lt_irrefl x (Hy x Hv)).
Qed.

Lemma sorted_ids_In (key : row -> value) (df : DataFrame) (v : value) :
  In v (sorted_ids key df) <-> In v (map key df).
Proof. unfold sorted_ids. now rewrite sort_In, unique_In. Qed.

Lemma sorted_ids_strict (key : row -> value) (df : DataFrame) :
  StronglySorted value_lt (sorted_ids key df).
Proof. apply sort_strict, unique_NoDup. Qed.

Lemma sorted_ids_length (key : row -> value) (df : DataFrame) :
  length (sorted_ids key df) = length (unique (map key df)).
Proof. apply sort_length. Qed.

(** ** Dicts *)

Section DictFacts.
Context {K V : Type} (eqb : K -> K -> bool).
Hypothesis eqb_eq : forall a b, eqb a b = true <-> a = b.

Lemma dict_set_fresh (k : K) (v : V) (d : list (K * V)) :
  ~ In k (map fst d) -> dict_set eqb k v d = d ++ [(k, v)].
Proof.
  induction d as [|[k' v'] d IH]; simpl; intro N; [reflexivity|].
  destruct (eqb k k') eqn:E.
  - apply eqb_eq in E. subst. tauto.
  - rewrite IH by tauto. reflexivity.
Qed.

Lemma dict_of_from (items acc : list (K * V)) :
  NoDup (map fst (acc ++ items)) ->
  fold_left (fun d kv => dict_set eqb (fst kv) (snd kv) d) items acc
  = acc ++ items.
Proof.
  revert acc. induction items as [|[k v] items IH]; simpl; intros acc N.
  - now rewrite app_nil_r.
  - rewrite dict_set_fresh.
    + rewrite IH; rewrite <- app_assoc; [reflexivity | exact N].
    + rewrite map_app in N. simpl in N.
      apply NoDup_remove_2 in N. intro Hin. apply N.
      apply in_or_app. now left.
Qed.

(** A comprehension over items with distinct keys stores them as they
    come. *)
Lemma dict_of_distinct (items : list (K * V)) :
  NoDup (map fst items) -> dict_of eqb items = items.
Proof. intro N. unfold dict_of. now rewrite dict_of_from. Qed.

Lemma dict_get_In (k : K) (v : V) (d : list (K * V)) :
  dict_get eqb k d = Some v -> In (k, v) d.
Proof.
  induction d as [|[k' v'] d IH]; simpl; [discriminate|].
  destruct (eqb k k') eqn:E.
  - intro H. injection H as ->. apply eqb_eq in E. subst. now left.
  - intro H. right. now apply IH.
Qed.

Lemma In_dict_get (k : K) (v : V) (d : list (K * V)) :
  NoDup (map fst d) -> In (k, v) d -> dict_get eqb k d = Some v.
Proof.
  induction d as [|[k' v'] d IH]; simpl; intros N H; [contradiction|].
  inversion N as [|? ? Hk Hd]; subst.
  destruct H as [H|H].
  - injection H as -> ->.
    now rewrite (proj2 (eqb_eq k k) eq_refl).
  - destruct (eqb k k') eqn:E.
    + apply eqb_eq in E. subst. exfalso. apply Hk.
      change k' with (fst (k', v)). now apply in_map.
    + now apply IH.
Qed.

Lemma dict_get_key (k : K) (d : list (K * V)) :
  In k (map fst d) -> exists v, dict_get eqb k d = Some v.
Proof.
  induction d as [|[k' v'] d IH]; simpl; [contradiction|].
  intros [->|H].
  - exists v'. now rewrite (proj2 (eqb_eq k k) eq_refl).
  - destruct (eqb k k'); [now exists v' | now apply IH].
Qed.
End DictFacts.

(** ** The index dicts *)

Lemma swap_combine {A B} (a : list A) (b : list B) :
  map swap (combine a b) = combine b a.
Proof.
  revert b. induction a as [|x a IH]; intros [|y b]; simpl;
    try reflexivity.
  now rewrite IH.
Qed.

Lemma combine_seq_fst {A} (l : list A) (s : nat) :
  map fst (combine l (seq s (length l))) = l.
Proof.
  revert s. induction l as [|x l IH]; intro s; simpl; [reflexivity|].
  now rewrite IH.
Qed.

Lemma combine_seq_snd {A} (l : list A) (s : nat) :
  map snd (combine l (seq s (length l))) = seq s (length l).
Proof.
  revert s. induction l as [|x l IH]; intro s; simpl; [reflexivity|].
  now rewrite IH.
Qed.

Lemma seq_combine_fst {A} (l : list A) (s : nat) :
  map fst (combine (seq s (length l)) l) = seq s (length l).
Proof.
  revert s. induction l as [|x l IH]; intro s; simpl; [reflexivity|].
  now rewrite IH.
Qed.

Lemma index_dict_distinct (l : list value) :
  NoDup l -> index_dict l = combine l (seq 0 (length l)).
Proof.
  intro N. unfold index_dict, enumerate. rewrite swap_combine.
  apply dict_of_distinct; [exact value_eqb_eq|].
  now rewrite combine_seq_fst.
Qed.

Lemma invert_dict_index (l : list value) :
  invert_dict (combine l (seq 0 (length l))) = combine (seq 0 (length l)) l.
Proof.
  unfold invert_dict. rewrite swap_combine.
  apply dict_of_distinct; [exact Nat.eqb_eq|].
  rewrite seq_combine_fst. apply seq_NoDup.
Qed.

Lemma dict_get_index (l : list value) (s : nat) (v : value) (i : nat) :
  dict_get value_eqb v (combine l (seq s (length l))) = Some i ->
  (s <= i)%nat /\ nth_error l (i - s) = Some v.
Proof.
  revert s. induction l as [|x l IH]; intro s; simpl; [discriminate|].
  destruct (value_eqb v x) eqn:E.
  - intro H. injection H as <-. apply value_eqb_eq in E. subst.
    rewrite Nat.sub_diag. split; [lia | reflexivity].
  - intro H. destruct (IH (S s) H) as [Hle Hn]. split; [lia|].
    replace (i - s)%nat with (S (i - S s)) by lia. exact Hn.
Qed.

Lemma strict_nth (l : list value) :
  forall i j a b,
    StronglySorted value_lt l ->
    nth_error l i = Some a -> nth_error l j = Some b ->
    (i < j)%nat -> value_lt a b.
Proof.
  induction l as [|x l IH]; intros i j a b Hs Hi Hj Hij.
  - destruct i; discriminate.
  - inversion Hs as [|? ? Hs' Hx]; subst.
    destruct j as [|j]; [lia|]. simpl in Hj.
    destruct i as [|i]; simpl in Hi.
    + injection Hi as ->. rewrite Forall_forall in Hx.
      apply Hx. eapply nth_error_In. exact Hj.
    + apply (IH i j); try assumption. lia.
Qed.

(** In the index dict of a strictly increasing series, a smaller cell has
    a smaller index, and conversely. *)
Lemma index_dict_monotone (l : list value) (a b : value) (i j : nat) :
  StronglySorted value_lt l ->
  dict_get value_eqb a (combine l (seq 0 (length l))) = Some i ->
  dict_get value_eqb b (combine l (seq 0 (length l))) = Some j ->
  (value_lt a b <-> (i < j)%nat).
Proof.
  intros Hs Ha Hb.
  apply dict_get_index in Ha, Hb.
  destruct Ha as [_ Ha], Hb as [_ Hb]. rewrite Nat.sub_0_r in Ha, Hb.
  split.
  - intro Hlt. destruct (Nat.lt_trichotomy i j) as [H|[H|H]].
    + assumption.
    + subst j. rewrite Ha in Hb. injection Hb as ->.
      exfalso. exact (value_lt_irrefl b Hlt).
    + exfalso. apply (value_lt_irrefl a).
      eapply value_lt_trans; [exact Hlt|].
      exact (strict_nth l j i b a Hs Hb Ha H).
  - intro Hij. exact (strict_nth l i j a b Hs Ha Hb Hij).
Qed.

(** Every cell of the frame is a key of the dict built from its column, so
    the lookups of [with_indices] do not raise. *)
Lemma with_indices_ok (users books : list (value * nat)) (df : DataFrame) :
  (forall r, In r df -> In (user_id r) (map fst users)) ->
  (forall r, In r df -> In (isbn r) (map fst books)) ->
  exists im, with_indices users books df = Ok im /\ map source_row im = df.
Proof.
  induction df as [|r df IH]; simpl; intros Hu Hb.
  - now exists [].
  - destruct IH as [im [Him Hsrc]]; try (intros; auto).
    assert (Lu : exists u, lookup_elem users (user_id r) = Ok u).
    { unfold lookup_elem. destruct (is_null (user_id r)); [now eexists|].
      destruct (dict_get_key value_eqb value_eqb_eq (user_id r) users)
        as [i Hi]; [now apply Hu; left|].
      rewrite Hi. now eexists. }
    assert (Lb : exists b, lookup_elem books (isbn r) = Ok b).
    { unfold lookup_elem. destruct (is_null (isbn r)); [now eexists|].
      destruct (dict_get_key value_eqb value_eqb_eq (isbn r) books)
        as [i Hi]; [now apply Hb; left|].
      rewrite Hi. now eexists. }
    destruct Lu as [u Lu], Lb as [b Lb].
    rewrite Lu, Lb, Him. simpl.
    eexists. split; [reflexivity|]. simpl. now rewrite Hsrc.
Qed.

Lemma create_interaction_matrix_ok (df : DataFrame) :
  exists im,
    create_interaction_matrix df = Ok (im, mappings_of df)
    /\ map source_row im = df.
Proof.
  unfold create_interaction_matrix, mappings_of.
  fold (sorted_ids user_id df). fold (sorted_ids isbn df).
  pose proof (strict_NoDup _ (sorted_ids_strict user_id df)) as Nu.
  pose proof (strict_NoDup _ (sorted_ids_strict isbn df)) as Nb.
  rewrite !index_dict_distinct by assumption.
  rewrite !invert_dict_index.
  destruct (with_indices_ok
              (combine (sorted_ids user_id df)
                       (seq 0 (length (sorted_ids user_id df))))
              (combine (sorted_ids isbn df)
                       (seq 0 (length (sorted_ids isbn df)))) df)
    as [im [Him Hsrc]].
  - intros r Hr. rewrite combine_seq_fst. apply sorted_ids_In.
    now apply in_map.
  - intros r Hr. rewrite combine_seq_fst. apply sorted_ids_In.
    now apply in_map.
  - exists im. rewrite Him. simpl. split; [reflexivity | assumption].
Qed.

(** * The sparsity filter *)

(** C1.  For every frame and every pair of minimums, [filter_sparse_data]
    returns a frame that meets the minimums on its own counts: each of its
    rows has a user with at least [min_ratings_per_user] rows in the
    returned frame and a book with at least [min_ratings_per_book] rows in
    the returned frame. *)
Theorem filter_sparse_data_fixed_point (self : BookDataProcessor)
  (df : DataFrame) :
  exists out,
    filter_sparse_data self df = Some out /\ meets_minimums self out.
Proof.
  destruct (filter_sparse_data_returns self df) as [k [Hrun [_ [Hfix _]]]].
  eexists. split; [exact Hrun|]. now apply pass_fixed_meets.
Qed.

(** C2, as the code has it.  In every pass the loop makes, the user test
    reads the counts of the frame the pass starts from, and the book test
    is applied to the rows that passed the user test but reads the book
    counts of that same starting frame, which were computed at the end of
    the previous pass (before the loop for the first pass); a row with a
    null key finds no partner in the join and is dropped with the rows
    below the minimum. *)
Theorem loop_body_uses_entry_counts (self : BookDataProcessor)
  (df : DataFrame) (st : loop_state) :
  reachable self df st ->
  ratings (loop_body self st)
  = filter (keep_book self (ratings st))
           (filter (keep_user self (ratings st)) (ratings st)).
Proof.
  intro Hreach. apply loop_body_ratings.
  exact (reachable_current self df st Hreach).
Qed.

(** The first pass over the scenario, minimums 2 and 2. *)
Lemma loop_body_uses_entry_counts_witness :
  ratings (loop_body (mk_processor 2 2) (init_state scenario))
  = filter (keep_book (mk_processor 2 2) scenario)
           (filter (keep_user (mk_processor 2 2) scenario) scenario).
Proof.
  apply (loop_body_uses_entry_counts (mk_processor 2 2) scenario
                                     (init_state scenario)).
  apply reach_init.
Defined.

(** C2 fails as stated: with both minimums 2, the first pass over the
    three-row scenario drops u2, after which i1 and i2 have one row each;
    the specification's pass then drops every row, while the code, reading
    the book counts taken before the user step (i1: 2), keeps (u1, i1). *)
Lemma first_pass_differs_from_spec_pass :
  reachable (mk_processor 2 2) scenario (init_state scenario)
  /\ ratings (loop_body (mk_processor 2 2) (init_state scenario))
     = [mk_row u1 i1 (VInt 5)]
  /\ spec_pass (mk_processor 2 2) scenario = [].
Proof. split; [apply reach_init | split; reflexivity]. Qed.

(** C3.  [filter_sparse_data] terminates on every frame: the loop returns
    within [length df + 2] tests of its condition (and more fuel gives the
    same frame); no pass the loop makes increases the number of rows; the
    loop enters its first pass; and after a pass the loop stops exactly
    when that pass left the frame unchanged. *)
Theorem filter_sparse_data_terminates (self : BookDataProcessor)
  (df : DataFrame) :
  (exists out,
      filter_sparse_data self df = Some out
      /\ forall fuel, (length df + 2 <= fuel)%nat ->
           while_loop self fuel (init_state df) = Some out)
  /\ (forall st, reachable self df st ->
        (length (ratings (loop_body self st)) <= length (ratings st))%nat)
  /\ loop_cond (init_state df) = true
  /\ (forall st, reachable self df st ->
        (loop_cond (loop_body self st) = false
         <-> ratings (loop_body self st) = ratings st)).
Proof.
  split; [|split; [|split]].
  - destruct (filter_sparse_data_returns self df) as [k [Hrun [Hfuel _]]].
    eexists. split; [exact Hrun | exact Hfuel].
  - intros st Hreach.
    rewrite (loop_body_ratings self st (reachable_current _ _ _ Hreach)).
    apply pass_length.
  - apply loop_cond_init.
  - intros st Hreach. rewrite loop_cond_after_pass.
    rewrite (loop_body_ratings self st (reachable_current _ _ _ Hreach)).
    split.
    + intro Hstop. apply negb_false_iff, Nat.eqb_eq in Hstop.
      now apply pass_same_length.
    + intro Hsame. now rewrite Hsame, Nat.eqb_refl.
Qed.

(** C5.  [filter_sparse_data] is idempotent: run on the frame it returned,
    with the same minimums, it returns that frame again. *)
Theorem filter_sparse_data_idempotent (self : BookDataProcessor)
  (df : DataFrame) :
  exists out,
    filter_sparse_data self df = Some out
    /\ filter_sparse_data self out = Some out.
Proof.
  destruct (filter_sparse_data_returns self df) as [k [Hrun [_ [Hfix _]]]].
  eexists. split; [exact Hrun|].
  destruct (filter_sparse_data_returns self (Nat.iter (S k) (pass self) df))
    as [k' [Hrun' _]].
  rewrite Hrun'. f_equal. now apply iter_pass_fixed.
Qed.

(** C6.  Raising [min_ratings_per_user] with [min_ratings_per_book] held
    fixed never yields more rows: the frame returned for the higher
    minimum is a sub-frame of the one returned for the lower minimum. *)
Theorem filter_sparse_data_monotone (min_user min_user' min_book : Z)
  (df : DataFrame) :
  min_user <= min_user' ->
  exists out out',
    filter_sparse_data (mk_processor min_user min_book) df = Some out
    /\ filter_sparse_data (mk_processor min_user' min_book) df = Some out'
    /\ (length out' <= length out)%nat
    /\ subframe out' out.
Proof.
  intro Hle.
  destruct (filter_sparse_data_returns (mk_processor min_user min_book) df)
    as [k [Hrun _]].
  destruct (filter_sparse_data_returns (mk_processor min_user' min_book) df)
    as [k' [Hrun' [_ [Hfix' _]]]].
  do 2 eexists. split; [exact Hrun | split; [exact Hrun'|]].
  assert (Hsub : subframe
                   (Nat.iter (S k') (pass (mk_processor min_user' min_book)) df)
                   (Nat.iter (S k) (pass (mk_processor min_user min_book)) df)).
  { apply stable_subframe_iter; [apply iter_pass_subframe|].
    intros r Hr.
    destruct (pass_fixed_all _ _ Hfix' r Hr) as [Hu Hb].
    split; [|exact Hb].
    eapply keep_user_weaken; eassumption. }
  split; [now apply subframe_length | exact Hsub].
Qed.

(** The scenario with the user minimum raised from 1 to 2. *)
Lemma filter_sparse_data_monotone_witness :
  exists out out',
    filter_sparse_data (mk_processor 1 1) scenario = Some out
    /\ filter_sparse_data (mk_processor 2 1) scenario = Some out'
    /\ (length out' <= length out)%nat
    /\ subframe out' out.
Proof.
  apply (filter_sparse_data_monotone 1 2 1 scenario). lia.
Defined.

(** C10.  [filter_sparse_data] only removes rows: the frame it returns is
    the input with some rows left out, every remaining row being a row of
    the input with its user_id, isbn and rating cells as they were, and it
    has the three columns of the input. *)
Theorem filter_sparse_data_only_removes (self : BookDataProcessor)
  (df : DataFrame) :
  exists out,
    filter_sparse_data self df = Some out
    /\ subframe out df
    /\ (forall r, In r out -> In r df)
    /\ snd (shape out) = snd (shape df).
Proof.
  destruct (filter_sparse_data_returns self df) as [k [Hrun _]].
  eexists. split; [exact Hrun|].
  pose proof (iter_pass_subframe self (S k) df) as Hsub.
  repeat split.
  - exact Hsub.
  - intros r Hr. exact (subframe_In _ _ r Hsub Hr).
Qed.

(** * The index maps *)

Lemma in_combine_swap {A B} (a : list A) (b : list B) (x : A) (y : B) :
  In (x, y) (combine a b) -> In (y, x) (combine b a).
Proof.
  intro H. rewrite <- swap_combine.
  change (y, x) with (swap (x, y)). now apply in_map.
Qed.

Lemma sorted_ids_bijection (key : row -> value) (df : DataFrame) :
  let ids := sorted_ids key df in
  axis_bijection key df
                 (combine ids (seq 0 (length ids)))
                 (combine (seq 0 (length ids)) ids)
                 (length ids).
Proof.
  intro ids.
  assert (Nids : NoDup ids) by apply strict_NoDup, sorted_ids_strict.
  repeat split.
  - intro Hv. apply (dict_get_key value_eqb value_eqb_eq).
    rewrite combine_seq_fst. now apply sorted_ids_In.
  - intros [i Hi]. apply (dict_get_In value_eqb value_eqb_eq) in Hi.
    apply (in_map fst) in Hi. rewrite combine_seq_fst in Hi.
    now apply sorted_ids_In in Hi.
  - now rewrite combine_seq_fst.
  - apply combine_seq_snd.
  - apply sorted_ids_length.
  - intro H. apply (dict_get_In value_eqb value_eqb_eq) in H.
    apply (In_dict_get Nat.eqb Nat.eqb_eq).
    + rewrite seq_combine_fst. apply seq_NoDup.
    + now apply in_combine_swap.
  - intro H. apply (dict_get_In Nat.eqb Nat.eqb_eq) in H.
    apply (In_dict_get value_eqb value_eqb_eq).
    + now rewrite combine_seq_fst.
    + now apply in_combine_swap.
Qed.

(** C4.  [create_interaction_matrix] returns, for users and for books, a
    forward dict whose keys are exactly the distinct cells of the column,
    whose indices are 0, 1, ..., N-1 with N the number of distinct cells
    (also stored as n_users, n_books), and a reverse dict that is its
    inverse: an identifier maps to an index exactly when that index maps
    back to the identifier. *)
Theorem index_maps_bijective (df : DataFrame) :
  exists im m,
    create_interaction_matrix df = Ok (im, m)
    /\ axis_bijection user_id df (user_to_idx m) (idx_to_user m) (n_users m)
    /\ axis_bijection isbn df (book_to_idx m) (idx_to_book m) (n_books m).
Proof.
  destruct (create_interaction_matrix_ok df) as [im [Hok _]].
  exists im, (mappings_of df). split; [exact Hok|].
  split; [apply (sorted_ids_bijection user_id) | apply (sorted_ids_bijection isbn)].
Qed.

Lemma sorted_ids_ordered (key : row -> value) (df : DataFrame) :
  let d := combine (sorted_ids key df)
                   (seq 0 (length (sorted_ids key df))) in
  StronglySorted value_lt (map fst d)
  /\ map snd d = seq 0 (length d)
  /\ ordered_by_sort d
  /\ ((forall r, In r df -> exists s, key r = VStr s) -> ordered_by_token d).
Proof.
  intro d. pose proof (sorted_ids_strict key df) as Hs.
  assert (Hord : ordered_by_sort d).
  { intros a b i j Ha Hb. now apply (index_dict_monotone (sorted_ids key df)). }
  split; [|split; [|split]].
  - unfold d. now rewrite combine_seq_fst.
  - unfold d. rewrite combine_seq_snd. f_equal.
    rewrite <- (length_map fst), combine_seq_fst. reflexivity.
  - exact Hord.
  - intros Hstr a b i j Ha Hb Hlt.
    assert (Hkey : forall v n, dict_get value_eqb v d = Some n ->
                               exists s, v = VStr s).
    { intros v n Hv. apply (dict_get_In value_eqb value_eqb_eq) in Hv.
      assert (Hin : In v (map fst d))
        by exact (in_map fst d (v, n) Hv).
      unfold d in Hin. rewrite combine_seq_fst in Hin.
      apply sorted_ids_In in Hin.
      apply in_map_iff in Hin. destruct Hin as [r [<- Hr]]. now apply Hstr. }
    destruct (Hkey a i Ha) as [s ->], (Hkey b j Hb) as [t ->].
    apply (Hord (VStr s) (VStr t) i j Ha Hb).
    now apply value_lt_strings.
Qed.

Lemma sorted_ids_same (key : row -> value) (df df' : DataFrame) :
  (forall v, In v (map key df) <-> In v (map key df')) ->
  sorted_ids key df = sorted_ids key df'.
Proof.
  intro Hsame. apply strict_unique; try apply sorted_ids_strict.
  intro v. now rewrite !sorted_ids_In.
Qed.

(** C7, as the code has it.  [create_interaction_matrix] puts the distinct
    cells of each identifier column in the order of [Series.sort()] (nulls
    first, integers by magnitude, strings lexicographically) and numbers
    them 0, 1, ..., N-1 in that order.  When every identifier of a column
    is a string, this is the lexicographic order of the raw tokens.  The
    mapping depends only on which identifiers occur: any frame with the
    same users and the same books gets the same [mappings]. *)
Theorem index_order_follows_sort (df : DataFrame) :
  exists im m,
    create_interaction_matrix df = Ok (im, m)
    /\ (StronglySorted value_lt (map fst (user_to_idx m))
        /\ map snd (user_to_idx m) = seq 0 (length (user_to_idx m))
        /\ ordered_by_sort (user_to_idx m)
        /\ ((forall r, In r df -> exists s, user_id r = VStr s) ->
            ordered_by_token (user_to_idx m)))
    /\ (StronglySorted value_lt (map fst (book_to_idx m))
        /\ map snd (book_to_idx m) = seq 0 (length (book_to_idx m))
        /\ ordered_by_sort (book_to_idx m)
        /\ ((forall r, In r df -> exists s, isbn r = VStr s) ->
            ordered_by_token (book_to_idx m)))
    /\ (forall df',
          (forall v, In v (map user_id df) <-> In v (map user_id df')) ->
          (forall v, In v (map isbn df) <-> In v (map isbn df')) ->
          exists im', create_interaction_matrix df' = Ok (im', m)).
Proof.
  destruct (create_interaction_matrix_ok df) as [im [Hok _]].
  exists im, (mappings_of df). split; [exact Hok|].
  split; [apply (sorted_ids_ordered user_id)|].
  split; [apply (sorted_ids_ordered isbn)|].
  intros df' Hu Hb.
  destruct (create_interaction_matrix_ok df') as [im' [Hok' _]].
  exists im'. rewrite Hok'. unfold mappings_of.
  now rewrite (sorted_ids_same user_id df df' Hu),
              (sorted_ids_same isbn df df' Hb).
Qed.

(** C7 fails as stated: user 9 gets index 0 and user 10 index 1, although
    the token "10" precedes the token "9" lexicographically. *)
Lemma numeric_ids_not_token_ordered :
  exists im m,
    create_interaction_matrix numeric_users = Ok (im, m)
    /\ dict_get value_eqb (VInt 9) (user_to_idx m) = Some 0%nat
    /\ dict_get value_eqb (VInt 10) (user_to_idx m) = Some 1%nat
    /\ String.ltb (raw_token (VInt 10)) (raw_token (VInt 9)) = true
    /\ ~ ordered_by_token (user_to_idx m).
Proof.
  do 2 eexists. split; [reflexivity|].
  repeat split; try reflexivity.
  intro H.
  specialize (H (VInt 10) (VInt 9) 1%nat 0%nat eq_refl eq_refl eq_refl).
  lia.
Qed.

(** * The record cleaner *)

(** C8, as the code has it.  [clean_ratings] is a row-by-row renaming of
    the three columns: every raw row gives exactly one rating row, at the
    same position and with the same three cells, whatever the cells are;
    no row is rejected and none raises. *)
Theorem clean_ratings_keeps_every_row (raw : list raw_row) :
  length (clean_ratings raw) = length raw
  /\ (forall n r, nth_error raw n = Some r ->
        nth_error (clean_ratings raw) n
        = Some (mk_row (User_ID r) (ISBN r) (Book_Rating r)))
  /\ (forall n t, nth_error (clean_ratings raw) n = Some t ->
        exists r, nth_error raw n = Some r
                  /\ user_id t = User_ID r /\ isbn t = ISBN r
                  /\ rating t = Book_Rating r).
Proof.
  unfold clean_ratings. split; [apply length_map|]. split.
  - intros n r H. now rewrite nth_error_map, H.
  - intros n t H. rewrite nth_error_map in H.
    destruct (nth_error raw n) as [r|]; [|discriminate].
    injection H as <-. exists r. now repeat split.
Qed.

(** C8 fails as stated: each of the four malformed rows produces a rating
    row. *)
Lemma clean_ratings_keeps_malformed_rows :
  clean_ratings malformed_rows
  = [mk_row VNull (VStr "0195153448") (VInt 5);
     mk_row (VStr "   ") (VStr "0195153448") (VInt 5);
     mk_row (VInt 7) (VStr "0195153448") VNull;
     mk_row (VInt 7) (VStr "0195153448") (VStr "n/a")].
Proof. reflexivity. Qed.

(** * The empty result *)

Lemma filter_none {A} (f : A -> bool) (l : list A) :
  (forall x, In x l -> f x = false) -> filter f l = [].
Proof.
  induction l as [|x l IH]; simpl; intro H; [reflexivity|].
  rewrite (H x (or_introl eq_refl)). apply IH.
  intros y Hy. apply H. now right.
Qed.

Lemma pass_exceeding (self : BookDataProcessor) (df : DataFrame) :
  exceeds_every_count self df -> pass self df = [].
Proof.
  intro Hex. unfold pass. rewrite (filter_none (keep_user self df)).
  - reflexivity.
  - intros r Hr. destruct (Hex r Hr) as [Hu _].
    unfold keep_user. apply andb_false_iff. right.
    apply Z.leb_gt. exact Hu.
Qed.

Lemma filter_sparse_data_exceeding (self : BookDataProcessor)
  (df : DataFrame) :
  exceeds_every_count self df -> filter_sparse_data self df = Some [].
Proof.
  intro Hex.
  destruct (filter_sparse_data_returns self df) as [k [Hrun _]].
  rewrite Hrun, <- iter_pass_shift, (pass_exceeding self df Hex).
  f_equal. now apply iter_pass_fixed.
Qed.

(** C9, as the code has it.  When both minimums exceed every count of the
    cleaned ratings, the pipeline does not raise: [filter_sparse_data]
    returns the empty frame, and [create_interaction_matrix] on it returns
    empty index dicts with n_users = 0 and n_books = 0.  The caller
    receives the empty frame and the six entries of [mappings], and
    nothing else: no status flag accompanies them. *)
Theorem empty_result_is_returned (self : BookDataProcessor)
  (raw : list raw_row) :
  exceeds_every_count self (clean_ratings raw) ->
  exists m,
    filter_sparse_data self (clean_ratings raw) = Some []
    /\ create_interaction_matrix [] = Ok ([], m)
    /\ process_all self raw = Some (Ok ([], m))
    /\ user_to_idx m = [] /\ book_to_idx m = []
    /\ n_users m = 0%nat /\ n_books m = 0%nat
    /\ mappings_items m
       = [("user_to_idx", PyIndex []); ("book_to_idx", PyIndex []);
          ("idx_to_user", PyReverse []); ("idx_to_book", PyReverse []);
          ("n_users", PyInt 0); ("n_books", PyInt 0)].
Proof.
  intro Hex. pose proof (filter_sparse_data_exceeding _ _ Hex) as Hf.
  exists (mappings_of []). split; [exact Hf|].
  split; [reflexivity|].
  split; [unfold process_all; rewrite Hf; reflexivity|].
  repeat split.
Qed.

Lemma lone_rating_exceeded :
  exceeds_every_count (mk_processor 2 2) (clean_ratings lone_rating).
Proof.
  intros r [<-|[]]. split; reflexivity.
Defined.

(** The lone rating with minimums 2 and 2. *)
Lemma empty_result_is_returned_witness :
  exists m,
    filter_sparse_data (mk_processor 2 2) (clean_ratings lone_rating)
    = Some []
    /\ create_interaction_matrix [] = Ok ([], m)
    /\ process_all (mk_processor 2 2) lone_rating = Some (Ok ([], m))
    /\ user_to_idx m = [] /\ book_to_idx m = []
    /\ n_users m = 0%nat /\ n_books m = 0%nat
    /\ mappings_items m
       = [("user_to_idx", PyIndex []); ("book_to_idx", PyIndex []);
          ("idx_to_user", PyReverse []); ("idx_to_book", PyReverse []);
          ("n_users", PyInt 0); ("n_books", PyInt 0)].
Proof.
  apply (empty_result_is_returned (mk_processor 2 2) lone_rating).
  exact lone_rating_exceeded.
Defined.

(** C9 fails as stated: on the lone rating with both minimums 2 the
    filter converges to no rows, and what the caller receives is the empty
    frame and a [mappings] dict whose keys are the six of the dict literal;
    it has no EmptyResultWarning entry, and the book count is stored under
    n_books, not n_items. *)
Lemma empty_result_sets_no_flag :
  process_all (mk_processor 2 2) lone_rating
  = Some (Ok ([], mappings_of []))
  /\ map fst (mappings_items (mappings_of []))
     = ["user_to_idx"; "book_to_idx"; "idx_to_user"; "idx_to_book";
        "n_users"; "n_books"]
  /\ dict_get String.eqb "EmptyResultWarning"
              (mappings_items (mappings_of [])) = None
  /\ dict_get String.eqb "n_items" (mappings_items (mappings_of [])) = None
  /\ dict_get String.eqb "n_books" (mappings_items (mappings_of []))
     = Some (PyInt 0).
Proof. repeat split. Qed.

(** * The code's loop and the specification's algorithm *)

Lemma subframe_same_length (a b : DataFrame) :
  subframe a b -> length a = length b -> a = b.
Proof.
  induction 1 as [|r a b H IH|r a b H IH]; simpl; intro E.
  - reflexivity.
  - pose proof (subframe_length a b H). lia.
  - f_equal. apply IH. lia.
Qed.

Lemma subframe_antisym (a b : DataFrame) :
  subframe a b -> subframe b a -> a = b.
Proof.
  intros Hab Hba. apply subframe_same_length; [assumption|].
  pose proof (subframe_length a b Hab).
  pose proof (subframe_length b a Hba). lia.
Qed.

Lemma spec_pass_subframe (self : BookDataProcessor) (df : DataFrame) :
  subframe (spec_pass self df) df.
Proof.
  unfold spec_pass. eapply subframe_trans; apply subframe_filter.
Qed.

Lemma spec_pass_same_length (self : BookDataProcessor) (df : DataFrame) :
  length (spec_pass self df) = length df ->
  spec_pass self df = df /\ meets_minimums self df.
Proof.
  unfold spec_pass. cbv zeta.
  set (fu := fun r => min_ratings_per_user self
                      <=? Z.of_nat (count_in user_id (user_id r) df)).
  intro E.
  pose proof (filter_length_bound fu df) as B1.
  assert (E1 : filter fu df = df).
  { apply filter_full.
    pose proof (filter_length_bound
                  (fun r => min_ratings_per_book self
                            <=? Z.of_nat (count_in isbn (isbn r) (filter fu df)))
                  (filter fu df)).
    lia. }
  rewrite E1 in *.
  assert (E2 := filter_full _ _ E).
  split; [exact E2|].
  intros t Ht. split.
  - apply Z.leb_le. exact (filter_id_all fu df E1 t Ht).
  - apply Z.leb_le. exact (filter_id_all _ df E2 t Ht).
Qed.

Lemma iter_spec_pass_shift (self : BookDataProcessor) (k : nat)
  (df : DataFrame) :
  Nat.iter k (spec_pass self) (spec_pass self df)
  = Nat.iter (S k) (spec_pass self) df.
Proof.
  induction k as [|k IH]; simpl; [reflexivity|]. now rewrite IH.
Qed.

Lemma spec_filter_loop_settles (self : BookDataProcessor) (n : nat) :
  forall current,
    (length current <= n)%nat ->
    exists k,
      (forall fuel, (n + 1 <= fuel)%nat ->
         spec_filter_loop self fuel current
         = Some (Nat.iter (S k) (spec_pass self) current))
      /\ meets_minimums self (Nat.iter (S k) (spec_pass self) current).
Proof.
  induction n as [|n IH]; intros current Hn.
  all: pose proof (subframe_length _ _ (spec_pass_subframe self current))
    as Hp.
  all: destruct (Nat.eq_dec (length (spec_pass self current))
                            (length current)) as [E|E]; [|try lia].
  1, 2: exists 0%nat; simpl;
        destruct (spec_pass_same_length self current E) as [F M]; split;
        [ intros fuel Hf; destruct fuel as [|fuel]; [lia|]; simpl;
          now rewrite E, Nat.eqb_refl
        | now rewrite F ].
  destruct (IH (spec_pass self current)) as [k [Hrun Hfix]]; [lia|].
  rewrite iter_spec_pass_shift in Hfix.
  exists (S k). split; [|exact Hfix].
  intros fuel Hf. destruct fuel as [|fuel]; [lia|].
  cbn [spec_filter_loop]. apply Nat.eqb_neq in E. rewrite E.
  rewrite Hrun by lia. now rewrite iter_spec_pass_shift.
Qed.

(** A sub-frame that meets the minimums on its own counts survives a pass
    of the specification over any frame that contains it. *)
Lemma stable_subframe_spec_pass (self : BookDataProcessor)
  (a b : DataFrame) :
  subframe a b -> meets_minimums self a -> subframe a (spec_pass self b).
Proof.
  intros Hab Hm. unfold spec_pass. cbv zeta.
  assert (H2 : subframe a
                 (filter (fun r => min_ratings_per_user self
                            <=? Z.of_nat (count_in user_id (user_id r) b)) b)).
  { apply subframe_into_filter; [assumption|].
    intros r Hr. destruct (Hm r Hr) as [Hu _]. apply Z.leb_le.
    pose proof (subframe_count user_id (user_id r) a b Hab). lia. }
  apply subframe_into_filter; [assumption|].
  intros r Hr. destruct (Hm r Hr) as [_ Hb]. apply Z.leb_le.
  pose proof (subframe_count isbn (isbn r) _ _ H2). lia.
Qed.

Lemma stable_subframe_spec_iter (self : BookDataProcessor) (k : nat)
  (a b : DataFrame) :
  subframe a b -> meets_minimums self a ->
  subframe a (Nat.iter k (spec_pass self) b).
Proof.
  intros Hab Hm. induction k as [|k IH]; simpl; [assumption|].
  now apply stable_subframe_spec_pass.
Qed.

Lemma iter_spec_pass_subframe (self : BookDataProcessor) (k : nat)
  (df : DataFrame) :
  subframe (Nat.iter k (spec_pass self) df) df.
Proof.
  induction k as [|k IH]; simpl; [apply subframe_refl|].
  eapply subframe_trans; [apply spec_pass_subframe | exact IH].
Qed.

(** X1.  On a frame without null identifiers the loop of
    [filter_sparse_data] and the algorithm of the specification return the
    same frame, although their passes differ: reading the book counts taken
    before the user step delays removals but never changes which rows
    remain at the end. *)
Theorem filter_sparse_data_refines_spec (self : BookDataProcessor)
  (df : DataFrame) :
  no_null_ids df ->
  exists out,
    filter_sparse_data self df = Some out
    /\ spec_sparsity_filter self df = Some out.
Proof.
  intro Hnn.
  destruct (filter_sparse_data_returns self df) as [k [Hrun [_ [Hfix _]]]].
  destruct (spec_filter_loop_settles self (length df) df (le_n _))
    as [k' [Hrun' Hfix']].
  exists (Nat.iter (S k) (pass self) df). split; [exact Hrun|].
  unfold spec_sparsity_filter. rewrite Hrun' by lia. f_equal.
  apply subframe_antisym.
  - apply stable_subframe_iter; [apply iter_spec_pass_subframe|].
    intros r Hr. destruct (Hfix' r Hr) as [Hu Hb].
    destruct (Hnn r) as [Nu Nb].
    { exact (subframe_In _ _ r (iter_spec_pass_subframe self (S k') df) Hr). }
    unfold keep_user, keep_book. rewrite Nu, Nb. simpl.
    split; now apply Z.leb_le.
  - apply stable_subframe_spec_iter; [apply iter_pass_subframe|].
    now apply pass_fixed_meets.
Qed.

Lemma scenario_no_null_ids : no_null_ids scenario.
Proof.
  intros r [<-|[<-|[<-|[]]]]; split; reflexivity.
Defined.

(** The scenario with minimums 2 and 2, where the first passes differ. *)
Lemma filter_sparse_data_refines_spec_witness :
  exists out,
    filter_sparse_data (mk_processor 2 2) scenario = Some out
    /\ spec_sparsity_filter (mk_processor 2 2) scenario = Some out.
Proof.
  apply (filter_sparse_data_refines_spec (mk_processor 2 2) scenario).
  exact scenario_no_null_ids.
Defined.

(** * What the filter keeps and what it drops *)

Lemma pass_fixed_no_null (self : BookDataProcessor) (df : DataFrame) :
  pass self df = df -> no_null_ids df.
Proof.
  intros H r Hr. destruct (pass_fixed_all self df H r Hr) as [Hu Hb].
  unfold keep_user, keep_book in *.
  apply andb_prop in Hu, Hb. destruct Hu as [Hu _], Hb as [Hb _].
  apply negb_true_iff in Hu, Hb. now split.
Qed.

Lemma stable_keeps (self : BookDataProcessor) (df : DataFrame) :
  no_null_ids df -> meets_minimums self df ->
  forall r, In r df ->
    keep_user self df r = true /\ keep_book self df r = true.
Proof.
  intros Hnn Hm r Hr. destruct (Hnn r Hr) as [Nu Nb].
  destruct (Hm r Hr) as [Hu Hb].
  unfold keep_user, keep_book. rewrite Nu, Nb. simpl.
  split; now apply Z.leb_le.
Qed.



(** X2.  Whatever the minimums, no row of the frame [filter_sparse_data]
    returns has a null user_id or a null isbn: the joins of the first pass
    already drop such rows. *)
Theorem filter_sparse_data_drops_null_ids (self : BookDataProcessor)
  (df : DataFrame) :
  exists out, filter_sparse_data self df = Some out /\ no_null_ids out.
Proof.
  destruct (filter_sparse_data_returns self df) as [k [Hrun [_ [Hfix _]]]].
  eexists. split; [exact Hrun|]. exact (pass_fixed_no_null self _ Hfix).
Qed.

(** X3.  [filter_sparse_data] removes no more than it must: every
    selection of rows of the input that has no null identifier and meets
    both minimums on its own counts is contained in the frame returned. *)
Theorem filter_sparse_data_greatest (self : BookDataProcessor)
  (df a : DataFrame) :
  subframe a df -> no_null_ids a -> meets_minimums self a ->
  exists out, filter_sparse_data self df = Some out /\ subframe a out.
Proof.
  intros Hsub Hnn Hm.
  destruct (filter_sparse_data_returns self df) as [k [Hrun _]].
  eexists. split; [exact Hrun|].
  apply stable_subframe_iter; [assumption|].
  now apply stable_keeps.
Qed.

Lemma scenario_head_stable :
  subframe [mk_row u1 i1 (VInt 5); mk_row u1 i2 (VInt 3)] scenario
  /\ no_null_ids [mk_row u1 i1 (VInt 5); mk_row u1 i2 (VInt 3)]
  /\ meets_minimums (mk_processor 2 1)
                    [mk_row u1 i1 (VInt 5); mk_row u1 i2 (VInt 3)].
Proof.
  split; [|split].
  - apply subframe_keep, subframe_keep, subframe_drop, subframe_nil.
  - intros r [<-|[<-|[]]]; split; reflexivity.
  - intros r [<-|[<-|[]]]; split; vm_compute; discriminate.
Defined.

(** The two ratings of u1 in the scenario, minimums 2 and 1. *)
Lemma filter_sparse_data_greatest_witness :
  exists out,
    filter_sparse_data (mk_processor 2 1) scenario = Some out
    /\ subframe [mk_row u1 i1 (VInt 5); mk_row u1 i2 (VInt 3)] out.
Proof.
  apply (filter_sparse_data_greatest (mk_processor 2 1) scenario
           [mk_row u1 i1 (VInt 5); mk_row u1 i2 (VInt 3)]);
    apply scenario_head_stable.
Defined.






(** * The interaction matrix *)

Lemma is_null_true (v : value) : is_null v = true <-> v = VNull.
Proof. destruct v; simpl; split; congruence. Qed.

Lemma with_indices_rows (users books : list (value * nat)) (df : DataFrame) :
  forall im,
    with_indices users books df = Ok im ->
    map source_row im = df
    /\ (forall x, In x im ->
          lookup_elem users (user_id (source_row x)) = Ok (user_idx x)
          /\ lookup_elem books (isbn (source_row x)) = Ok (book_idx x)).
Proof.
  induction df as [|r df IH]; simpl; intros im H.
  - injection H as <-. split; [reflexivity | intros x []].
  - destruct (lookup_elem users (user_id r)) as [u|e] eqn:Lu;
      [|discriminate].
    destruct (lookup_elem books (isbn r)) as [b|e] eqn:Lb;
      [|discriminate].
    destruct (with_indices users books df) as [rest|e];
      [|discriminate].
    simpl in H. injection H as <-.
    destruct (IH rest eq_refl) as [Hsrc Hrows].
    split; [simpl; now rewrite Hsrc|].
    intros x [<-|Hx]; [simpl; now split | now apply Hrows].
Qed.

Lemma lookup_elem_resolves (key : row -> value) (df : DataFrame)
  (fwd : list (value * nat)) (rev : list (nat * value)) (n : nat)
  (v : value) (o : option nat) :
  axis_bijection key df fwd rev n ->
  lookup_elem fwd v = Ok o -> resolves rev n v o.
Proof.
  intros [_ [_ [Hseq [_ Hinv]]]]. unfold lookup_elem.
  destruct (is_null v) eqn:N.
  - intro H. injection H as <-. now apply is_null_true.
  - destruct (dict_get value_eqb v fwd) as [i|] eqn:G; [|discriminate].
    intro H. injection H as <-. simpl. split; [|split].
    + intros ->. discriminate.
    + apply (dict_get_In value_eqb value_eqb_eq) in G.
      apply (in_map snd) in G. rewrite Hseq in G.
      apply in_seq in G. simpl in G. lia.
    + now apply Hinv.
Qed.

Lemma created_rows_resolve (df : DataFrame) (im : list interaction_row) :
  create_interaction_matrix df = Ok (im, mappings_of df) ->
  forall x, In x im ->
    resolves (idx_to_user (mappings_of df)) (n_users (mappings_of df))
             (user_id (source_row x)) (user_idx x)
    /\ resolves (idx_to_book (mappings_of df)) (n_books (mappings_of df))
                (isbn (source_row x)) (book_idx x).
Proof.
  intros Hok x Hx.
  assert (Hwi : with_indices (user_to_idx (mappings_of df))
                             (book_to_idx (mappings_of df)) df = Ok im).
  { revert Hok. unfold create_interaction_matrix.
    fold (sorted_ids user_id df). fold (sorted_ids isbn df).
    rewrite !index_dict_distinct
      by apply strict_NoDup, sorted_ids_strict.
    simpl.
    destruct (with_indices _ _ df) as [im'|e]; simpl; [|discriminate].
    intro H. now injection H as ->. }
  destruct (with_indices_rows _ _ df im Hwi) as [_ Hrows].
  destruct (Hrows x Hx) as [Lu Lb]. split.
  - exact (lookup_elem_resolves user_id df _ _ _ _ _
             (sorted_ids_bijection user_id df) Lu).
  - exact (lookup_elem_resolves isbn df _ _ _ _ _
             (sorted_ids_bijection isbn df) Lb).
Qed.





(** * Books, users and the context features *)

Lemma mem_unique (v : value) (col : list value) :
  mem v (unique col) = mem v col.
Proof.
  apply eq_true_iff_eq. now rewrite !mem_In, unique_In.
Qed.

Lemma filter_key_of {R} (f : value -> R) (l : list value) (k : value) :
  NoDup l ->
  filter (fun e => value_eqb k (fst e)) (map (fun x => (x, f x)) l)
  = if mem k l then [(k, f k)] else [].
Proof.
  induction 1 as [|x l Hx Hl IH]; simpl; [reflexivity|].
  destruct (value_eqb k x) eqn:E; simpl.
  - apply value_eqb_eq in E. subst x. rewrite IH.
    destruct (mem k l) eqn:M; [|reflexivity].
    apply mem_In in M. contradiction.
  - exact IH.
Qed.

(** Joining with a grouped frame: every left row whose key is not null
    and occurs in the grouped column is kept once, in order, with the
    aggregate of its key. *)
Lemma join_frames_grouped {L R} (key : L -> value) (left : list L)
  (col : list value) (f : value -> R) :
  join_frames key left (map (fun k => (k, f k)) (unique col))
  = map (fun l => (l, f (key l)))
        (filter (fun l => is_in (key l) col) left).
Proof.
  unfold join_frames, is_in.
  induction left as [|l left IH]; simpl; [reflexivity|].
  rewrite IH. destruct (is_null (key l)); simpl; [reflexivity|].
  rewrite filter_key_of by apply unique_NoDup.
  rewrite mem_unique. now destruct (mem (key l) col).
Qed.














(** * More on what the filter returns *)

Lemma keep_book_weaken (mu mb mb' : Z) (snapshot : DataFrame) (r : row) :
  mb <= mb' ->
  keep_book (mk_processor mu mb') snapshot r = true ->
  keep_book (mk_processor mu mb) snapshot r = true.
Proof.
  unfold keep_book. simpl. intros Hle H.
  apply andb_prop in H. destruct H as [Hn H]. rewrite Hn. simpl.
  apply Z.leb_le. apply Z.leb_le in H. lia.
Qed.

(** X11.  Raising [min_ratings_per_book], alone or together with
    [min_ratings_per_user], never brings a row back: the frame returned
    for the higher minimums is contained in the frame returned for the
    lower ones. *)
Theorem filter_sparse_data_antitone (min_user min_user' min_book min_book' : Z)
  (df : DataFrame) :
  min_user <= min_user' -> min_book <= min_book' ->
  exists out out',
    filter_sparse_data (mk_processor min_user min_book) df = Some out
    /\ filter_sparse_data (mk_processor min_user' min_book') df = Some out'
    /\ subframe out' out.
Proof.
  intros Hu Hb.
  destruct (filter_sparse_data_returns (mk_processor min_user min_book) df)
    as [k [Hrun _]].
  destruct (filter_sparse_data_returns (mk_processor min_user' min_book') df)
    as [k' [Hrun' [_ [Hfix' _]]]].
  do 2 eexists. split; [exact Hrun | split; [exact Hrun'|]].
  apply stable_subframe_iter; [apply iter_pass_subframe|].
  intros r Hr. destruct (pass_fixed_all _ _ Hfix' r Hr) as [Ku Kb]. split.
  - apply (keep_user_weaken min_user min_user' min_book); [assumption|].
    exact Ku.
  - apply (keep_book_weaken min_user min_book min_book'); [assumption|].
    unfold keep_book in *. exact Kb.
Qed.

(** The scenario, minimums raised from (1, 1) to (2, 2). *)
Lemma filter_sparse_data_antitone_witness :
  exists out out',
    filter_sparse_data (mk_processor 1 1) scenario = Some out
    /\ filter_sparse_data (mk_processor 2 2) scenario = Some out'
    /\ subframe out' out.
Proof.
  apply (filter_sparse_data_antitone 1 2 1 2 scenario); lia.
Defined.

(** X12.  More ratings never cost a rating its place: when the rows of
    one input are among the rows of another, every row the filter keeps
    of the smaller input is kept of the larger one as well. *)
Theorem filter_sparse_data_grows_with_input (self : BookDataProcessor)
  (df df' : DataFrame) :
  subframe df df' ->
  exists out out',
    filter_sparse_data self df = Some out
    /\ filter_sparse_data self df' = Some out'
    /\ subframe out out'.
Proof.
  intro Hsub.
  destruct (filter_sparse_data_returns self df) as [k [Hrun [_ [Hfix _]]]].
  destruct (filter_sparse_data_returns self df') as [k' [Hrun' _]].
  do 2 eexists. split; [exact Hrun | split; [exact Hrun'|]].
  apply stable_subframe_iter.
  - eapply subframe_trans; [apply iter_pass_subframe | exact Hsub].
  - now apply pass_fixed_all.
Qed.

(** The two ratings of u1 inside the scenario, minimums 2 and 1. *)
Lemma filter_sparse_data_grows_with_input_witness :
  exists out out',
    filter_sparse_data (mk_processor 2 1)
                       [mk_row u1 i1 (VInt 5); mk_row u1 i2 (VInt 3)]
    = Some out
    /\ filter_sparse_data (mk_processor 2 1) scenario = Some out'
    /\ subframe out out'.
Proof.
  apply (filter_sparse_data_grows_with_input (mk_processor 2 1)
           [mk_row u1 i1 (VInt 5); mk_row u1 i2 (VInt 3)] scenario).
  apply scenario_head_stable.
Defined.

Lemma count_in_perm (key : row -> value) (k : value) (a b : DataFrame) :
  Permutation a b -> count_in key k a = count_in key k b.
Proof.
  unfold count_in.
  induction 1 as [|x a b H IH|x y a|a b c H1 IH1 H2 IH2]; simpl.
  - reflexivity.
  - rewrite !count_key_cons. lia.
  - rewrite !count_key_cons. lia.
  - congruence.
Qed.

Lemma filter_perm {A} (f : A -> bool) (a b : list A) :
  Permutation a b -> Permutation (filter f a) (filter f b).
Proof.
  induction 1 as [|x a b H IH|x y a|a b c H1 IH1 H2 IH2]; simpl.
  - constructor.
  - destruct (f x); [now constructor | assumption].
  - destruct (f x), (f y); try reflexivity. constructor.
  - eapply perm_trans; eassumption.
Qed.

Lemma pass_perm (self : BookDataProcessor) (a b : DataFrame) :
  Permutation a b -> Permutation (pass self a) (pass self b).
Proof.
  intro H. unfold pass.
  rewrite (filter_ext (keep_user self a) (keep_user self b))
    by (intro r; unfold keep_user;
        now rewrite (count_in_perm user_id _ a b H)).
  rewrite (filter_ext (keep_book self a) (keep_book self b))
    by (intro r; unfold keep_book;
        now rewrite (count_in_perm isbn _ a b H)).
  now apply filter_perm, filter_perm.
Qed.

Lemma iter_pass_perm (self : BookDataProcessor) (n : nat) (a b : DataFrame) :
  Permutation a b ->
  Permutation (Nat.iter n (pass self) a) (Nat.iter n (pass self) b).
Proof.
  intro H. induction n as [|n IH]; simpl; [assumption|].
  now apply pass_perm.
Qed.

(** X13.  Which rows the filter returns does not depend on the order of
    the input rows: two frames with the same rows in any order give
    frames with the same rows. *)
Theorem filter_sparse_data_order_free (self : BookDataProcessor)
  (df df' : DataFrame) :
  Permutation df df' ->
  exists out out',
    filter_sparse_data self df = Some out
    /\ filter_sparse_data self df' = Some out'
    /\ Permutation out out'.
Proof.
  intro Hperm.
  destruct (filter_sparse_data_returns self df) as [k [Hrun [_ [Hfix _]]]].
  destruct (filter_sparse_data_returns self df')
    as [k' [Hrun' [_ [Hfix' _]]]].
  do 2 eexists. split; [exact Hrun | split; [exact Hrun'|]].
  rewrite <- (iter_pass_fixed self (S k') _ Hfix).
  rewrite <- (iter_pass_fixed self (S k) _ Hfix').
  rewrite <- !Nat.iter_add, (Nat.add_comm (S k) (S k')).
  now apply iter_pass_perm.
Qed.

(** The scenario and the scenario with its first two rows exchanged. *)
Lemma filter_sparse_data_order_free_witness :
  exists out out',
    filter_sparse_data (mk_processor 2 1) scenario = Some out
    /\ filter_sparse_data (mk_processor 2 1)
         [mk_row u1 i2 (VInt 3); mk_row u1 i1 (VInt 5);
          mk_row u2 i1 (VInt 4)]
       = Some out'
    /\ Permutation out out'.
Proof.
  apply (filter_sparse_data_order_free (mk_processor 2 1) scenario).
  apply perm_swap.
Defined.

(** * The context features on their own *)


Lemma scenario_features_joinable :
  features_joinable (@clean_books clean_cells scenario_books)
                    (@clean_users clean_cells scenario_users) scenario.
Proof.
  split; exists Utf8; split; repeat constructor.
Defined.


(** X15.  The selection of valid books and valid users that [process_all]
    makes before it calls [create_llm_context_features] (lines 139-145)
    changes nothing: the features of the selected rows are the features of
    all rows, because the joins make the same selection. *)
Theorem valid_rows_selection_is_absorbed `{Expressions}
  (books : list Book.t) (users : list User.t) (df : DataFrame) :
  features_joinable books users df ->
  create_llm_context_features
    (filter (fun b => is_in (Book.isbn b) (map isbn df)) books)
    (filter (fun u => is_in (User.user_id u) (map user_id df)) users)
    df
  = create_llm_context_features books users df.
Proof.
  intros _.
  unfold create_llm_context_features, book_stats, user_profiles.
  rewrite !join_frames_grouped, !filter_filter.
  f_equal; f_equal; apply filter_ext; intro x; apply andb_diag.
Qed.

(** The cleaned files of the scenario with its unfiltered ratings. *)
Lemma valid_rows_selection_is_absorbed_witness :
  let books := @clean_books clean_cells scenario_books in
  let users := @clean_users clean_cells scenario_users in
  @create_llm_context_features clean_cells
    (filter (fun b => is_in (Book.isbn b) (map isbn scenario)) books)
    (filter (fun u => is_in (User.user_id u) (map user_id scenario)) users)
    scenario
  = @create_llm_context_features clean_cells books users scenario.
Proof.
  apply (@valid_rows_selection_is_absorbed clean_cells).
  exact scenario_features_joinable.
Defined.

(** * Null identifiers in the index maps *)

Lemma strict_head_null (l : list value) :
  StronglySorted value_lt l -> In VNull l -> exists t, l = VNull :: t.
Proof.
  intros Hs Hin. destruct l as [|h t]; [contradiction|].
  destruct Hin as [->|Hin]; [now exists t|].
  inversion Hs as [|? ? _ Hh]; subst. rewrite Forall_forall in Hh.
  specialize (Hh VNull Hin). unfold value_lt in Hh.
  destruct h; simpl in Hh; discriminate.
Qed.

Lemma null_index_unused (key : row -> value)
  (idx : interaction_row -> option nat) (df : DataFrame)
  (im : list interaction_row) :
  let ids := sorted_ids key df in
  let rev := combine (seq 0 (length ids)) ids in
  (forall x, In x im -> resolves rev (length ids) (key (source_row x)) (idx x)) ->
  In VNull (map key df) ->
  dict_get value_eqb VNull (combine ids (seq 0 (length ids))) = Some 0%nat
  /\ dict_get Nat.eqb 0%nat rev = Some VNull
  /\ rows_with idx 0 im = 0%nat.
Proof.
  intros ids rev Hres Hnull.
  destruct (strict_head_null ids (sorted_ids_strict key df)) as [t Et];
    [now apply sorted_ids_In|].
  assert (Hrev : dict_get Nat.eqb 0%nat rev = Some VNull)
    by (unfold rev; now rewrite Et).
  split; [now rewrite Et|]. split; [exact Hrev|].
  unfold rows_with. rewrite filter_none; [reflexivity|].
  intros x Hx. specialize (Hres x Hx).
  destruct (idx x) as [j|]; simpl in *; [|reflexivity].
  destruct (Nat.eqb_spec j 0) as [->|]; [|reflexivity].
  destruct Hres as [Hne [_ Hj]]. rewrite Hrev in Hj.
  injection Hj as Hj. now symmetry in Hj.
Qed.

(** X16.  Called on a frame that still has a null identifier,
    [create_interaction_matrix] gives the null identifier index 0 on its
    axis, in both directions of the mapping, and counts it in n_users
    (n_books), but writes that index into no row: the rows of the null
    identifier get a null index, so row (column) 0 of the matrix stays
    empty. *)
Theorem null_identifier_takes_index_zero (df : DataFrame) :
  exists im m,
    create_interaction_matrix df = Ok (im, m)
    /\ (In VNull (map user_id df) ->
        dict_get value_eqb VNull (user_to_idx m) = Some 0%nat
        /\ dict_get Nat.eqb 0%nat (idx_to_user m) = Some VNull
        /\ (0 < n_users m)%nat
        /\ rows_with user_idx 0 im = 0%nat)
    /\ (In VNull (map isbn df) ->
        dict_get value_eqb VNull (book_to_idx m) = Some 0%nat
        /\ dict_get Nat.eqb 0%nat (idx_to_book m) = Some VNull
        /\ (0 < n_books m)%nat
        /\ rows_with book_idx 0 im = 0%nat).
Proof.
  destruct (create_interaction_matrix_ok df) as [im [Hok _]].
  pose proof (created_rows_resolve df im Hok) as Hres.
  exists im, (mappings_of df). split; [exact Hok|]. split; intro Hnull.
  - destruct (null_index_unused user_id user_idx df im) as [H1 [H2 H3]];
      [intros x Hx; now apply Hres | exact Hnull |].
    repeat split; try assumption. simpl.
    destruct (strict_head_null _ (sorted_ids_strict user_id df)) as [t Et];
      [now apply sorted_ids_In|].
    rewrite Et. simpl. lia.
  - destruct (null_index_unused isbn book_idx df im) as [H1 [H2 H3]];
      [intros x Hx; now apply Hres | exact Hnull |].
    repeat split; try assumption. simpl.
    destruct (strict_head_null _ (sorted_ids_strict isbn df)) as [t Et];
      [now apply sorted_ids_In|].
    rewrite Et. simpl. lia.
Qed.

(** The anonymous rating: index 0 is the missing user, user 7 has
    index 1. *)
Lemma null_identifier_takes_index_zero_witness :
  exists im m,
    create_interaction_matrix anonymous_rating = Ok (im, m)
    /\ dict_get value_eqb VNull (user_to_idx m) = Some 0%nat
    /\ dict_get Nat.eqb 0%nat (idx_to_user m) = Some VNull
    /\ (0 < n_users m)%nat
    /\ rows_with user_idx 0 im = 0%nat.
Proof.
  destruct (null_identifier_takes_index_zero anonymous_rating)
    as [im [m [Hok [Huser _]]]].
  exists im, m. split; [exact Hok|].
  apply Huser. simpl. auto.
Defined.
